(** * The listing scraper: traversal, record extraction and orchestration

    A shallow embedding of [scraper.ts] (the memory-generation variant under
    [Motherboard/src] and its near-duplicate that walks the CPU sockets).

    - JavaScript strings are [string]s, one character per code unit, for
      code units below 256.
    - The [Page] object of the browser is a state: the document currently
      loaded.  The catalog site is a function from URLs to documents; a
      URL it does not know makes [page.goto] reject.
    - [async function*] becomes a computation in the monad [M], which
      threads the page, may throw, and records what it did (navigations,
      serializer calls, yielded batches) in an event trace.
    - The imports that are not part of these two files
      ([serialization-map.json], [customSerializers], [genericSerialize],
      [serializeNumber]) are fields of an environment [Env].  The two
      tables are objects: a finite map holds their own keys, and a key
      that is not among them is looked up on [Object.prototype], as a
      property read does.  What an inherited method returns when it is
      called where a custom serializer was meant is a field of [Env] as
      well.  An endpoint is a [PartType], and no part type is the name of
      a member of [Object.prototype]: [map[endpoint]] and
      [customSerializers[endpoint]] are read by own key.
    - The cluster runs one task per queued endpoint, each on a page of its
      own.  The size of the pool, the 20 minute limit of a task and a
      failing [writeFile] are left out. *)

From Stdlib Require Import ZArith QArith Ascii String DecimalString.
From stdpp Require Import base option list strings gmap.

Local Close Scope Q_scope.
Local Open Scope string_scope.
Local Open Scope list_scope.
Local Open Scope Z_scope.

(** ** JavaScript built-ins used by the scraper *)

Module JS.

(** [WhiteSpace] and [LineTerminator] code units below 256:
    TAB, LF, VT, FF, CR, SP and NBSP. *)
Definition isWhiteSpace (c : ascii) : bool :=
  match N_of_ascii c with
  | 9 | 10 | 11 | 12 | 13 | 32 | 160 => true
  | _ => false
  end%N.

Fixpoint trimStart (s : string) : string :=
  match s with
  | String c s' => if isWhiteSpace c then trimStart s' else s
  | EmptyString => EmptyString
  end.

Definition trimEnd (s : string) : string :=
  String.rev (trimStart (String.rev s)).

(** [String.prototype.trim] *)
Definition trim (s : string) : string := trimEnd (trimStart s).

(** The value of a code unit as a digit of the given radix. *)
Definition digitVal (radix : Z) (c : ascii) : option Z :=
  let n := Z.of_N (N_of_ascii c) in
  let d := if (48 <=? n) && (n <=? 57) then Some (n - 48)
           else if (97 <=? n) && (n <=? 122) then Some (n - 87)
           else if (65 <=? n) && (n <=? 90) then Some (n - 55)
           else None in
  match d with
  | Some v => if v <? radix then Some v else None
  | None => None
  end.

(** The longest prefix of radix digits, as an integer; [None] when the
    prefix is empty. *)
Fixpoint parseDigits (radix : Z) (acc : option Z) (s : string) : option Z :=
  match s with
  | String c s' =>
      match digitVal radix c with
      | Some v =>
          parseDigits radix (Some (match acc with
                                   | Some a => a * radix + v
                                   | None => v
                                   end)) s'
      | None => acc
      end
  | EmptyString => acc
  end.

(** [parseInt(string)] with no radix argument; [None] is [NaN].  The
    result is the mathematical integer (no rounding to a double). *)
Definition parseInt (s : string) : option Z :=
  let s0 := trimStart s in
  let '(sign, s1) :=
    match s0 with
    | String "-" r => (-1, r)
    | String "+" r => (1, r)
    | _ => (1, s0)
    end in
  let '(radix, s2) :=
    match s1 with
    | String "0" (String "x" r) | String "0" (String "X" r) => (16, r)
    | _ => (10, s1)
    end in
  Z.mul sign <$> parseDigits radix None s2.

(** [`${n}`] for a loop counter. *)
Definition numberToString (n : nat) : string :=
  NilEmpty.string_of_uint (Nat.to_uint n).

(** [`${x}`] for the result of [Array.prototype.find] on strings. *)
Definition stringOrUndefined (o : option string) : string :=
  match o with
  | Some s => s
  | None => "undefined"
  end.

(** The properties of [Object.prototype], which every object written as
    a literal or read from JSON inherits: eleven methods and the accessor
    [__proto__]. *)
Definition objectPrototypeNames : list string :=
  [ "constructor"; "__defineGetter__"; "__defineSetter__"; "hasOwnProperty";
    "__lookupGetter__"; "__lookupSetter__"; "isPrototypeOf";
    "propertyIsEnumerable"; "toString"; "valueOf"; "__proto__";
    "toLocaleString" ].

(** [name in Object.prototype] *)
Definition inherited (name : string) : bool :=
  bool_decide (name ∈ objectPrototypeNames).

End JS.

(** ** Data model *)

(** What can be thrown inside a traversal. *)
Inductive exn : Type :=
| NavigationError (url : string)      (* [page.goto] rejected *)
| TimeoutError (selector : string)    (* [waitForSelector] timed out *)
| NoElementError (selector : string)  (* [$eval] found no element *)
| MappingError (specName : string)    (* [No mapping found for spec '...'] *)
| TypeError (what : string)           (* property of undefined, call of what is
                                         no function, destructuring of what
                                         is not iterable *)
| SerializerError (message : string). (* thrown by an imported serializer *)

(** Element handles, as the data the scraper reads from them. *)
Record SpecEl : Type := {
  specLabel : option string;   (* innerText of [.specLabel], if there is one *)
  innerText : string;          (* innerText of the [td.td__spec] cell *)
}.

Record ProductEl : Type := {
  nameText : option string;            (* [.td__name .td__nameWrapper > p] *)
  priceText : option (option string);  (* textContent of [.td__price] *)
  specs : list SpecEl;                 (* [td.td__spec] *)
}.

Record Document : Type := {
  hasNav : bool;                        (* a [nav] element shows up *)
  pagination : option (option string);  (* [.pagination], and the innerText
                                           of its [li:last-child] *)
  products : list ProductEl;            (* [.tr__product] *)
}.

(** A fresh page of the cluster. *)
Definition blankPage : Document :=
  {| hasNav := false; pagination := None; products := [] |}.

Section Model.

(** JavaScript numbers are kept abstract. *)
Context {number : Type}.

(** What a field of a record can hold: a JSON value, or whatever else a
    call has returned. *)
#[warnings="-register-all"]
Inductive Value : Type :=
| VNull
| VNumber (n : number)
| VString (s : string)
| VBool (b : bool)
| VArray (l : list Value)
| VObject (fields : list (string * Value))
| VUndefined
| VOther (what : string).  (* a function, a boxed primitive, a host object *)

(** [Part]: an object used as an open record. *)
Abbreviation Part := (gmap string Value).

Inductive event : Type :=
| EvGoto (url : string)
| EvNetworkIdle
| EvSerializeNumber (value : string)
| EvGenericSerialize (value type : string)
| EvCustomSerialize (endpoint field value : string)
| EvYield (pageProducts : list Part).

(** The imports of [scraper.ts] and the site it is pointed at. *)
Record Env : Type := {
  map : gmap string (gmap string (string * string));
  customSerializers : gmap string (gmap string (string → exn + Value));
  (* [Object.prototype[name]] called as a method of
     [customSerializers[endpoint]], if it is a function *)
  inheritedMethod : string → string → option (string → exn + Value);
  genericSerialize : string → string → exn + Value;
  serializeNumber : string → exn + number;
  site : string → option Document;
}.

(** What differs between the two copies of the file: the variant table
    (in declared order) and the URL of a later page. *)
Record Source : Type := {
  cpuSockets : list (string * string);
  pageUrl : string → string → nat → string;
}.

(** ** The traversal monad *)

Record Out (A : Type) : Type := mkOut {
  events : list event;
  page : Document;
  result : exn + A;
}.
Global Arguments mkOut {A} _ _ _.
Global Arguments events {A} _.
Global Arguments page {A} _.
Global Arguments result {A} _.

Definition M (A : Type) : Type := Document → Out A.

Definition ret {A} (a : A) : M A := λ p, mkOut [] p (inr a).

Definition bind {A B} (m : M A) (f : A → M B) : M B := λ p,
  let o := m p in
  match result o with
  | inl e => mkOut (events o) (page o) (inl e)
  | inr a =>
      let o' := f a (page o) in
      mkOut (events o ++ events o') (page o') (result o')
  end.

Definition throw {A} (e : exn) : M A := λ p, mkOut [] p (inl e).

Definition emit (ev : event) : M unit := λ p, mkOut [ev] p (inr tt).

Definition lift {A} (r : exn + A) : M A := λ p, mkOut [] p r.

Global Instance M_ret : MRet M := @ret.
Global Instance M_bind : MBind M := λ A B f m, bind m f.

(** [for (const x of xs) acc = body(acc, x)] *)
Fixpoint foldM {A B} (body : B → A → M B) (xs : list A) (acc : B) : M B :=
  match xs with
  | [] => ret acc
  | x :: xs' => bind (body acc x) (foldM body xs')
  end.

(** [for (const x of xs) body(x)] *)
Fixpoint forM_ {A} (body : A → M unit) (xs : list A) : M unit :=
  match xs with
  | [] => ret tt
  | x :: xs' => bind (body x) (λ _, forM_ body xs')
  end.

(** ** Browser operations *)

Variable env : Env.

Definition goto (url : string) : M unit := λ p,
  match site env url with
  | Some d => mkOut [EvGoto url] d (inr tt)
  | None => mkOut [EvGoto url] p (inl (NavigationError url))
  end.

Definition waitForNetworkIdle : M unit := emit EvNetworkIdle.

(** [page.waitForSelector('.pagination', { timeout: 5000 })] *)
Definition waitForPagination : M (option string) := λ p,
  match pagination p with
  | Some paginationEl => mkOut [] p (inr paginationEl)
  | None => mkOut [] p (inl (TimeoutError ".pagination"))
  end.

(** [page.waitForSelector('nav')] *)
Definition waitForNav : M unit := λ p,
  if hasNav p then mkOut [] p (inr tt)
  else mkOut [] p (inl (TimeoutError "nav")).

(** [page.$$('.tr__product')] *)
Definition productElements : M (list ProductEl) := λ p,
  mkOut [] p (inr (products p)).

(** [handle.$eval(selector, f)]: throws when nothing matches. *)
Definition eval {A} (selector : string) (found : option A) : M A :=
  match found with
  | Some a => ret a
  | None => throw (NoElementError selector)
  end.

Definition yield (pageProducts : list Part) : M unit :=
  emit (EvYield pageProducts).

(** ** Calls of the imported serializers *)

Definition callSerializeNumber (value : string) : M number :=
  emit (EvSerializeNumber value) ;; lift (serializeNumber env value).

Definition callGenericSerialize (value type : string) : M Value :=
  emit (EvGenericSerialize value type) ;; lift (genericSerialize env value type).

(** [forEndpoint[field]] for [forEndpoint = customSerializers[endpoint]],
    if it is a function: the one registered under that key, or else the
    method of that name the object inherits. *)
Definition getSerializer (endpoint : string)
    (forEndpoint : gmap string (string → exn + Value)) (field : string)
  : option (string → exn + Value) :=
  match forEndpoint !! field with
  | Some f => Some f
  | None =>
      if JS.inherited field then inheritedMethod env endpoint field else None
  end.

(** [customSerializers[endpoint]![field]!(value)] *)
Definition callCustomSerializer (endpoint field value : string) : M Value :=
  match customSerializers env !! endpoint with
  | None => throw (TypeError "Cannot read properties of undefined")
  | Some forEndpoint =>
      match getSerializer endpoint forEndpoint field with
      | None => throw (TypeError "is not a function")
      | Some f => emit (EvCustomSerialize endpoint field value) ;; lift (f value)
      end
  end.

(** ** [scrape] *)

Variable src : Source.

Definition BASE_URL : string := "https://pcpartpicker.com/products".

(** [Object.keys(cpuSockets).find((key) => cpuSockets[key] === socketUrl)] *)
Definition findSocketName (socketUrl : string) : option string :=
  fst <$> List.find (λ entry, bool_decide (snd entry = socketUrl)) (cpuSockets src).

(** One turn of [for (const spec of specs)]. *)
Definition scrapeSpec (endpoint : string) (serialized : Part) (spec : SpecEl)
  : M Part :=
  specName ← eval ".specLabel" (JS.trim <$> specLabel spec);
  match map env !! endpoint with
  | None => throw (TypeError "Cannot read properties of undefined")
  | Some forEndpoint =>
      match forEndpoint !! specName with
      | None =>
          (* an inherited property is not [undefined], and not iterable
             either: [const [...] = mapped] throws *)
          if JS.inherited specName then throw (TypeError "mapped is not iterable")
          else throw (MappingError specName)
      | Some (snakeSpecName, mappedSpecSerializationType) =>
          let specValue := innerText spec in
          if decide (JS.trim specValue = "") then
            mret (<[snakeSpecName := VNull]> serialized)
          else if decide (mappedSpecSerializationType = "custom") then
            v ← callCustomSerializer endpoint snakeSpecName specValue;
            mret (<[snakeSpecName := v]> serialized)
          else
            v ← callGenericSerialize specValue mappedSpecSerializationType;
            mret (<[snakeSpecName := v]> serialized)
      end
  end.

(** One turn of [for (const productEl of productEls)], up to the push. *)
Definition scrapeProduct (endpoint socketUrl : string) (productEl : ProductEl)
  : M Part :=
  let serialized : Part := ∅ in
  let socketName := findSocketName socketUrl in
  title ← eval ".td__name .td__nameWrapper > p" (nameText productEl);
  let serialized :=
    <["name" := VString (JS.stringOrUndefined socketName +:+ " " +:+ title)]>
      serialized in
  priceText ← eval ".td__price" (priceText productEl);
  price ← match priceText with
          | None => mret VNull
          | Some text =>
              if decide (JS.trim text = "") then mret VNull
              else n ← callSerializeNumber text; mret (VNumber n)
          end;
  let serialized := <["price" := price]> serialized in
  foldM (scrapeSpec endpoint) (specs productEl) serialized.

(** [for (const productEl of productEls)], filling [pageProducts]. *)
Definition scrapeProducts (endpoint socketUrl : string)
    (productEls : list ProductEl) : M (list Part) :=
  foldM (λ pageProducts productEl,
           serialized ← scrapeProduct endpoint socketUrl productEl;
           mret (pageProducts ++ [serialized])%list)
        productEls [].

(** Body of [for (let currentPage = 1; currentPage <= numPages; currentPage++)]. *)
Definition scrapePage (endpoint socketUrl : string) (currentPage : nat) : M unit :=
  (if decide (1 < currentPage)%nat then
     goto (pageUrl src endpoint socketUrl currentPage) ;; waitForNetworkIdle
   else mret tt) ;;
  productEls ← productElements;
  pageProducts ← scrapeProducts endpoint socketUrl productEls;
  yield pageProducts.

(** The values [currentPage] takes: none when [numPages] is [NaN] or
    below 1. *)
Definition pageNumbers (numPages : option Z) : list nat :=
  match numPages with
  | Some n => seq 1 (Z.to_nat n)
  | None => []
  end.

Definition fullUrl (endpoint socketUrl : string) : string :=
  BASE_URL +:+ "/" +:+ endpoint +:+ "/" +:+ socketUrl.

(** Body of [for (const [_, socketUrl] of Object.entries(cpuSockets))]. *)
Definition scrapeVariant (endpoint : string) (entry : string * string) : M unit :=
  let socketUrl := entry.2 in
  goto (fullUrl endpoint socketUrl) ;;
  waitForNetworkIdle ;;
  paginationEl ← waitForPagination;
  lastItem ← eval "li:last-child" paginationEl;
  let numPages := JS.parseInt lastItem in
  forM_ (scrapePage endpoint socketUrl) (pageNumbers numPages).

Definition scrape (endpoint : string) : M unit :=
  forM_ (scrapeVariant endpoint) (cpuSockets src).

(** ** [scrapeInParallel] *)

(** What a task of the cluster leaves behind: the warning of its [catch],
    if it ran, and the array it hands to [writeFile] for
    [`${endpoint}.json`]. *)
Record Report : Type := {
  category : string;
  aborted : option exn;
  allParts : list Part;
}.

(** [for await (const pageParts of ...) allParts.push(...pageParts)] *)
Definition drain (evs : list event) : list Part :=
  fold_left (λ allParts ev,
               match ev with
               | EvYield pageParts => (allParts ++ pageParts)%list
               | _ => allParts
               end) evs [].

(** The task function given to [cluster.task]. Every task gets a page
    of its own. *)
Definition task (endpoint : string) : Report :=
  let o := scrape endpoint blankPage in
  {| category := endpoint;
     aborted := match result o with
                | inl error => Some error
                | inr _ => None
                end;
     allParts := drain (events o) |}.

(** The first job: it opens the site and only then queues the endpoints. *)
Definition seed : M unit :=
  goto "https://pcpartpicker.com" ;; waitForNav.

(** The reports of a run, in queue order.  Tasks share nothing but the
    read-only tables, so the schedule of the pool does not show in a
    report. *)
Definition scrapeInParallel (endpoints : list string) : list Report :=
  match result (seed blankPage) with
  | inr _ => task <$> endpoints
  | inl _ => []
  end.

(** ** Reading a trace *)

(** The batches yielded, in order. *)
Definition yields (evs : list event) : list (list Part) :=
  omap (λ ev, match ev with EvYield pageProducts => Some pageProducts | _ => None end) evs.

(** The URLs navigated to, in order. *)
Definition gotos (evs : list event) : list string :=
  omap (λ ev, match ev with EvGoto url => Some url | _ => None end) evs.

(** The serializer calls, in order. *)
Definition isSerializerCall (ev : event) : bool :=
  match ev with
  | EvSerializeNumber _ | EvGenericSerialize _ _ | EvCustomSerialize _ _ _ => true
  | _ => false
  end.

Definition serializerCalls (evs : list event) : list event :=
  List.filter isSerializerCall evs.

(** ** The traversal described page by page

    What the listing of a variant looks like on the site, without
    running the loop: used to state in which order batches come out. *)

(** The URL that shows page [currentPage] of a variant. *)
Definition urlOfPage (endpoint socketUrl : string) (currentPage : nat) : string :=
  if decide (1 < currentPage)%nat then pageUrl src endpoint socketUrl currentPage
  else fullUrl endpoint socketUrl.

(** The page count the pagination control of a variant shows. *)
Definition numPagesOf (endpoint socketUrl : string) : option Z :=
  d ← site env (fullUrl endpoint socketUrl);
  paginationEl ← pagination d;
  lastItem ← paginationEl;
  JS.parseInt lastItem.

(** All records of one document, if every one of them can be built. *)
Definition recordsOf (endpoint socketUrl : string) (d : Document)
  : exn + list Part :=
  result (scrapeProducts endpoint socketUrl (products d) d).

(** The batch of page [currentPage] of a variant. *)
Definition batchOf (endpoint socketUrl : string) (currentPage : nat) : list Part :=
  match site env (urlOfPage endpoint socketUrl currentPage) with
  | Some d =>
      match recordsOf endpoint socketUrl d with
      | inr pageProducts => pageProducts
      | inl _ => []
      end
  | None => []
  end.

(** The batches of one variant, pages ascending. *)
Definition batchesOfVariant (endpoint : string) (entry : string * string)
  : list (list Part) :=
  batchOf endpoint entry.2 <$> pageNumbers (numPagesOf endpoint entry.2).

(** The navigations of one variant: its first page, then every later one. *)
Definition urlsOfVariant (endpoint : string) (entry : string * string)
  : list string :=
  urlOfPage endpoint entry.2 <$>
    (1%nat :: tail (pageNumbers (numPagesOf endpoint entry.2))).

(** Variant by variant in declared order, pages ascending. *)
Definition batchesInOrder (endpoint : string) : list (list Part) :=
  flat_map (batchesOfVariant endpoint) (cpuSockets src).

(** The navigations of a traversal that runs to its end. *)
Definition navigationsInOrder (endpoint : string) : list string :=
  flat_map (urlsOfVariant endpoint) (cpuSockets src).

(** No mapping of the endpoint writes to the two fields every record
    starts with. *)
Definition keepsNameAndPrice (endpoint : string) : Prop :=
  match map env !! endpoint with
  | Some forEndpoint =>
      map_Forall (λ (_ : string) (mapped : string * string),
                    mapped.1 ≠ "name" ∧ mapped.1 ≠ "price") forEndpoint
  | None => True
  end.

(** The function [customSerializers[endpoint][field]] finds, if any. *)
Definition registeredSerializer (endpoint field : string)
  : option (string → exn + Value) :=
  match customSerializers env !! endpoint with
  | Some forEndpoint => getSerializer endpoint forEndpoint field
  | None => None
  end.

(** What a label without an entry of its own makes the loop throw: the
    error of the [throw] statement, or for an inherited name the error of
    the destructuring. *)
Definition absentLabelError (specName : string) : exn :=
  if JS.inherited specName then TypeError "mapped is not iterable"
  else MappingError specName.

(** A product row with only the given spec cells. *)
Definition withSpecs (productEl : ProductEl) (cells : list SpecEl) : ProductEl :=
  {| nameText := nameText productEl;
     priceText := priceText productEl;
     specs := cells |}.

(** Page [currentPage] of a variant is on the site and a record can be
    built for every product on it. *)
Definition pageRead (endpoint socketUrl : string) (currentPage : nat) : Prop :=
  ∃ d pageProducts,
    site env (urlOfPage endpoint socketUrl currentPage) = Some d ∧
    recordsOf endpoint socketUrl d = inr pageProducts.

(** Raw text that is absent, empty or only white space. *)
Definition isBlank (text : option string) : Prop :=
  match text with
  | Some t => JS.trim t = ""
  | None => True
  end.

(** The value [price] is given before the spec cells are read. *)
Definition priceFrom (raw : option string) (price : Value) : Prop :=
  match raw with
  | Some text =>
      if decide (JS.trim text = "") then price = VNull
      else ∃ n, serializeNumber env text = inr n ∧ price = VNumber n
  | None => price = VNull
  end.


(** A computation that neither reads nor changes the page, and whose
    only events are serializer calls. *)
Definition static {A} (m : M A) : Prop :=
  ∃ evs r, Forall (λ ev, isSerializerCall ev = true) evs ∧
           ∀ p, m p = mkOut evs p r.

(** [pageProducts] holds a record for every product of some page of the
    listing of a variant. *)
Definition completePage (endpoint : string) (pageProducts : list Part) : Prop :=
  ∃ (entry : string * string) currentPage d,
    entry ∈ cpuSockets src ∧
    site env (urlOfPage endpoint entry.2 currentPage) = Some d ∧
    recordsOf endpoint entry.2 d = inr pageProducts.

(** An outcome whose batches and navigations go along the given lists,
    to their end if nothing was thrown. *)
Definition follows (P : list Part → Prop) (o : Out unit)
    (batches : list (list Part)) (urls : list string) : Prop :=
  yields (events o) `prefix_of` batches ∧
  gotos (events o) `prefix_of` urls ∧
  (result o = inr tt → yields (events o) = batches ∧ gotos (events o) = urls) ∧
  Forall P (yields (events o)).

End Model.

Global Arguments Value : clear implicits.
Global Arguments event : clear implicits.
Global Arguments Env : clear implicits.
Global Arguments Report : clear implicits.

Global Instance keepsNameAndPrice_dec {number} (env : Env number) endpoint :
  Decision (keepsNameAndPrice env endpoint).
Proof. unfold keepsNameAndPrice. destruct (map env !! endpoint); apply _. Defined.

(** ** The two copies of the file *)

(** [Motherboard/src/scraper.ts]: memory generations. *)
Module Motherboard.

Definition cpuSockets : list (string * string) :=
  [ ("DDR2", "#mt=ddr2");
    ("DDR3", "#mt=ddr3");
    ("DDR4", "#mt=ddr4");
    ("DDR5", "#mt=ddr5") ].

(** [`${BASE_URL}/${endpoint}/${socketUrl}&page=${currentPage}`] *)
Definition pageUrl (endpoint socketUrl : string) (currentPage : nat) : string :=
  BASE_URL +:+ "/" +:+ endpoint +:+ "/" +:+ socketUrl +:+ "&page="
    +:+ JS.numberToString currentPage.

Definition source : Source :=
  Build_Source cpuSockets pageUrl.

End Motherboard.

(** The copy that walks the CPU sockets. *)
Module Cpu.

Definition cpuSockets : list (string * string) :=
  [ ("AM1", "#k=27"); ("AM2p", "#k=2"); ("AM3", "#k=3"); ("AM3p", "#k=4");
    ("AM4", "#k=33"); ("AM5", "#k=41"); ("FM1", "#k=20"); ("FM2", "#k=23");
    ("FM2p", "#k=26"); ("G34", "#k=31"); ("LGA771", "#k=12");
    ("LGA775", "#k=13"); ("LGA1150", "#k=24"); ("LGA1151", "#k=30");
    ("LGA1155", "#k=14"); ("LGA1156", "#k=15"); ("LGA1200", "#k=39");
    ("LGA1356", "#k=37"); ("LGA1366", "#k=16"); ("LGA1700", "#k=40");
    ("LGA2011", "#k=21"); ("LGA2011_3", "#k=28"); ("LGA2066", "#k=35");
    ("sTR4", "#k=36"); ("sTRX4", "#k=38") ].

(** [`${BASE_URL}/${endpoint}/#page=${currentPage}`] *)
Definition pageUrl (endpoint socketUrl : string) (currentPage : nat) : string :=
  BASE_URL +:+ "/" +:+ endpoint +:+ "/#page=" +:+ JS.numberToString currentPage.

Definition source : Source :=
  Build_Source cpuSockets pageUrl.

End Cpu.

(** ** A fixture: serializers, tables and a small site

    Used to run the traversal on concrete inputs. *)

Module Fixture.

Definition isDigit (c : ascii) : bool :=
  let n := N_of_ascii c in ((48 <=? n) && (n <=? 57))%N.

(** Drops every code unit that is neither a digit nor the decimal point. *)
Fixpoint stripDecoration (s : string) : string :=
  match s with
  | String c s' =>
      if isDigit c || bool_decide (c = "."%char)
      then String c (stripDecoration s')
      else stripDecoration s'
  | EmptyString => EmptyString
  end.

(** Reads [digits] or [digits.digits]: the digits seen so far as an
    integer, and the number of them after the point. *)
Fixpoint readDecimal (s : string) (mantissa : Z) (seen : bool)
    (scale : option nat) : option (Z * nat) :=
  match s with
  | String c s' =>
      if isDigit c then
        readDecimal s' (10 * mantissa + Z.of_N (N_of_ascii c) - 48) true
                    (S <$> scale)
      else match scale with
           | None => readDecimal s' mantissa seen (Some 0%nat)
           | Some _ => None
           end
  | EmptyString =>
      if seen then Some (mantissa, default 0%nat scale) else None
  end.

(** Modelled from the spec: [serializeNumber] of [./serializers], the
    generic numeric serializer.  It strips non-numeric decoration
    (currency symbols, units) and parses a decimal number; text with no
    number in it fails with [MalformedValue]. *)
Definition serializeNumber (value : string) : exn + Q :=
  match readDecimal (stripDecoration value) 0 false None with
  | Some (mantissa, scale) =>
      inr (Qred (mantissa # Pos.of_nat (10 ^ scale)))
  | None => inl (SerializerError "MalformedValue")
  end.

(** Modelled from the spec: [genericSerialize] of [./serializers], for
    the kinds [number] and [boolean]; other kinds pass the trimmed text
    through. *)
Definition genericSerialize (value type : string) : exn + Value Q :=
  if decide (type = "number") then
    match serializeNumber value with
    | inr n => inr (VNumber n)
    | inl e => inl e
    end
  else if decide (type = "boolean") then
    if decide (JS.trim value = "Yes") then inr (VBool true)
    else if decide (JS.trim value = "No") then inr (VBool false)
    else inl (SerializerError "MalformedValue")
  else inr (VString (JS.trim value)).

(** A registry with one custom serializer. *)
Definition customSerializers
  : gmap string (gmap string (string → exn + Value Q)) :=
  {[ "memory" := {[ "speed" := λ value, inr (VString (JS.trim value)) ]} ]}.

(** The methods the registry of an endpoint inherits from
    [Object.prototype], called with the text of a cell as their only
    argument; [__proto__] is no method. *)
Definition inheritedMethod
    (registry : gmap string (gmap string (string → exn + Value Q)))
    (endpoint name : string) : option (string → exn + Value Q) :=
  let own (key : string) : bool :=
    bool_decide (is_Some (registry !! endpoint ≫= (.!! key))) in
  if decide (name ∈ ["toString"; "toLocaleString"]) then
    Some (λ _, inr (VString "[object Object]"))
  else if decide (name ∈ ["hasOwnProperty"; "propertyIsEnumerable"]) then
    Some (λ value, inr (VBool (own value)))
  else if decide (name = "isPrototypeOf") then
    Some (λ _, inr (VBool false))
  else if decide (name ∈ ["__defineGetter__"; "__defineSetter__"]) then
    Some (λ _, inl (TypeError "Expecting function"))
  else if decide (name ∈ ["__lookupGetter__"; "__lookupSetter__"]) then
    Some (λ value, inr (if decide (value = "__proto__") then VOther "function"
                        else VUndefined))
  else if decide (name ∈ ["constructor"; "valueOf"]) then
    Some (λ _, inr (VOther "object"))
  else None.

Definition memoryTable : gmap string (string * string) :=
  {[ "Speed" := ("speed", "custom");
     "Color" := ("color", "string");
     "CAS Latency" := ("cas_latency", "number") ]}.

Definition keyboardTable : gmap string (string * string) :=
  {[ "Backlit" := ("backlit", "boolean") ]}.

Definition mouseTable : gmap string (string * string) :=
  {[ "Color" := ("color", "string") ]}.

Definition caseTable : gmap string (string * string) :=
  {[ "Modules" := ("modules", "custom") ]}.

(** A mapping table; [Modules] of [case] is marked custom and has no
    registered function. *)
Definition map : gmap string (gmap string (string * string)) :=
  {[ "memory" := memoryTable;
     "keyboard" := keyboardTable;
     "mouse" := mouseTable;
     "case" := caseTable ]}.

Definition spec (label value : string) : SpecEl :=
  {| specLabel := Some label; innerText := value |}.

Definition product (title price : string) (specs : list SpecEl) : ProductEl :=
  {| nameText := Some title; priceText := Some (Some price); specs := specs |}.

Definition listing (lastPage : string) (products : list ProductEl) : Document :=
  {| hasNav := true; pagination := Some (Some lastPage); products := products |}.

Definition memoryItem (title : string) : ProductEl :=
  product title "$129.99" [spec " Speed " "DDR-800"; spec "CAS Latency" ""].

Definition keyboardItem (title price : string) : ProductEl :=
  product title price [spec "Backlit" "Yes"].

Definition keyboardPage : list ProductEl :=
  [ keyboardItem "K1" "$10"; keyboardItem "K2" "$20.5";
    keyboardItem "K3" "call us"; keyboardItem "K4" "$40" ].

Definition pages : gmap string Document :=
  list_to_map
    [ ("https://pcpartpicker.com", listing "" []);
      (* memory: two variants of two pages, one of one page, one of none *)
      ("https://pcpartpicker.com/products/memory/#mt=ddr2",
       listing "2" [memoryItem "A"; memoryItem "B"]);
      ("https://pcpartpicker.com/products/memory/#mt=ddr2&page=2",
       listing "2" [memoryItem "C"]);
      ("https://pcpartpicker.com/products/memory/#mt=ddr3",
       listing "2" [memoryItem "D"]);
      ("https://pcpartpicker.com/products/memory/#mt=ddr3&page=2",
       listing "2" [memoryItem "E"; memoryItem "F"]);
      ("https://pcpartpicker.com/products/memory/#mt=ddr4",
       listing "1" []);
      ("https://pcpartpicker.com/products/memory/#mt=ddr5",
       listing "" []);
      (* keyboard: the price of the third item is not a number *)
      ("https://pcpartpicker.com/products/keyboard/#mt=ddr2",
       listing "1" keyboardPage);
      (* mouse: a label in another case on the second page *)
      ("https://pcpartpicker.com/products/mouse/#mt=ddr2",
       listing "2" [product "M1" "" [spec "  Color  " "Black"]]);
      ("https://pcpartpicker.com/products/mouse/#mt=ddr2&page=2",
       listing "2" [product "M2" "$5" [spec "Color" " "];
                    product "M3" "$6" [spec "color" "Red"];
                    product "M4" "$7" []]);
      (* os: one page for every memory generation *)
      ("https://pcpartpicker.com/products/os/#mt=ddr2",
       listing "1" [product "Home" "$99" []]);
      ("https://pcpartpicker.com/products/os/#mt=ddr3",
       listing "1" [product "Home" "$99" []]);
      ("https://pcpartpicker.com/products/os/#mt=ddr4",
       listing "1" [product "Home" "$99" []]);
      ("https://pcpartpicker.com/products/os/#mt=ddr5",
       listing "1" [product "Home" "$99" []]);
      (* case: a field marked custom without a registered function *)
      ("https://pcpartpicker.com/products/case/#mt=ddr2",
       listing "1" [product "C1" "$70" [spec "Modules" ""];
                    product "C2" "$80" [spec "Modules" "2 x 8GB"]]) ].

Definition env : Env Q :=
  @Build_Env Q map customSerializers (inheritedMethod customSerializers)
             genericSerialize serializeNumber
             (λ url, pages !! url).

(** The same tables, and a site that does not answer. *)
Definition offline : Env Q :=
  @Build_Env Q map customSerializers (inheritedMethod customSerializers)
             genericSerialize serializeNumber
             (λ _, None).

(** The records the fixture is expected to give. *)
Definition memoryRecord (name : string) : gmap string (Value Q) :=
  <["cas_latency" := VNull]>
    (<["speed" := VString "DDR-800"]>
       (<["price" := VNumber (12999 # 100)%Q]>
          (<["name" := VString name]> ∅))).

Definition keyboardRecord (name : string) (price : Q) : gmap string (Value Q) :=
  <["backlit" := VBool true]>
    (<["price" := VNumber price]> (<["name" := VString name]> ∅)).

Definition mouseRecord : gmap string (Value Q) :=
  <["color" := VString "Black"]>
    (<["price" := VNull]> (<["name" := VString "DDR2 M1"]> ∅)).

Definition osRecord (name : string) : gmap string (Value Q) :=
  <["price" := VNumber (99 # 1)%Q]> (<["name" := VString name]> ∅).

End Fixture.

(** ** The entry point *)

Definition ALL_ENDPOINTS : list string :=
  [ "cpu"; "cpu-cooler"; "motherboard"; "memory"; "internal-hard-drive";
    "video-card"; "case"; "power-supply"; "os"; "monitor"; "sound-card";
    "wired-network-card"; "wireless-network-card"; "headphones"; "keyboard";
    "mouse"; "speakers"; "webcam"; "case-accessory"; "case-fan";
    "fan-controller"; "thermal-paste"; "external-hard-drive"; "optical-drive";
    "ups" ].

(** [process.argv.slice(2)] *)
Definition inputEndpoints (argv : list string) : list string := drop 2 argv.

(** [inputEndpoints.length ? inputEndpoints : ALL_ENDPOINTS] *)
Definition endpointsToScrape (argv : list string) : list string :=
  if negb (length (inputEndpoints argv) =? 0)%nat then inputEndpoints argv
  else ALL_ENDPOINTS.

(** The last line of the file: [scrapeInParallel(endpointsToScrape)]. *)
Definition main {number} (env : Env number) (src : Source) (argv : list string)
  : list (Report number) :=
  scrapeInParallel env src (endpointsToScrape argv).

(** ** Cells, fields and calls *)

Section Cells.

Context {number : Type}.
Variable env : Env number.

(** What the label of a spec cell is mapped to. *)
Definition mappedTo (endpoint : string) (spec : SpecEl) : option (string * string) :=
  label ← specLabel spec;
  forEndpoint ← map env !! endpoint;
  forEndpoint !! JS.trim label.


(** The function a kind selects for a field. *)
Definition serializerFor (endpoint field type : string)
  : option (string → exn + Value number) :=
  if decide (type = "custom") then registeredSerializer env endpoint field
  else Some (λ value, genericSerialize env value type).

(** The serializer call a spec cell asks for, if any. *)
Definition cellCall (endpoint : string) (spec : SpecEl) : option (event number) :=
  mapped ← mappedTo endpoint spec;
  if decide (JS.trim (innerText spec) = "") then None
  else if decide (mapped.2 = "custom")
       then Some (EvCustomSerialize endpoint mapped.1 (innerText spec))
       else Some (EvGenericSerialize (innerText spec) mapped.2).

(** The serializer call the price cell asks for, if any. *)
Definition priceCall (productEl : ProductEl) : list (event number) :=
  match priceText productEl with
  | Some (Some text) =>
      if decide (JS.trim text = "") then [] else [EvSerializeNumber text]
  | _ => []
  end.

Definition callsOf (endpoint : string) (productEl : ProductEl) : list (event number) :=
  priceCall productEl ++ omap (cellCall endpoint) (specs productEl).



End Cells.

(** ** A second fixture: pages that go wrong *)

Module Edge.

Definition table : gmap string (string * string) :=
  {[ "Color" := ("color", "string");
     "Colour" := ("color", "string");
     "Weight" := ("weight", "number") ]}.

Definition map : gmap string (gmap string (string * string)) :=
  {[ "mouse" := table ]}.

(** Two cells of this product are mapped to the field [color]. *)
Definition item : ProductEl :=
  Fixture.product "M" "$5"
    [ Fixture.spec "Color" "Red"; Fixture.spec "Weight" "90 g";
      Fixture.spec "Colour" " Blue " ].

Definition itemRecord : gmap string (Value Q) :=
  <["weight" := VNumber (90 # 1)%Q]>
    (<["color" := VString "Blue"]>
       (<["price" := VNumber (5 # 1)%Q]> (<["name" := VString "DDR2 M"]> ∅))).

(** No [.pagination] on this page. *)
Definition bare : Document :=
  {| hasNav := true; pagination := None; products := [item] |}.

Definition pages : gmap string Document :=
  list_to_map
    [ ("https://pcpartpicker.com", bare);
      (* the last item of the pagination control is not a number *)
      ("https://pcpartpicker.com/products/mouse/#mt=ddr2",
       Fixture.listing "Next" [item]);
      ("https://pcpartpicker.com/products/mouse/#mt=ddr3",
       Fixture.listing "0" [item]);
      ("https://pcpartpicker.com/products/keyboard/#mt=ddr2", bare) ].

Definition env : Env Q :=
  @Build_Env Q map Fixture.customSerializers
             (Fixture.inheritedMethod Fixture.customSerializers)
             Fixture.genericSerialize Fixture.serializeNumber
             (λ url, pages !! url).

(** The table of memory generations with the URL rule of the other copy. *)
Definition mixed : Source :=
  Build_Source Motherboard.cpuSockets Cpu.pageUrl.

End Edge.

(** ** A third fixture: names every object inherits *)

Module Inherit.

(** The field of [Kind] is named like a method of [Object.prototype]. *)
Definition table : gmap string (string * string) :=
  {[ "Type" := ("type", "string");
     "Kind" := ("toString", "custom");
     "Shape" := ("shape", "custom") ]}.

Definition map : gmap string (gmap string (string * string)) :=
  {[ "headphones" := table ]}.

(** The registry of [headphones] is there and holds no function. *)
Definition customSerializers
  : gmap string (gmap string (string → exn + Value Q)) :=
  {[ "headphones" := ∅ ]}.

Definition first : ProductEl :=
  Fixture.product "H1" "$5" [Fixture.spec "Kind" "Open"].

(** A cell labelled with the name of an inherited method. *)
Definition second : ProductEl :=
  Fixture.product "H2" "$6"
    [Fixture.spec "Type" "Closed"; Fixture.spec "constructor" "x"].

Definition firstRecord : gmap string (Value Q) :=
  <["toString" := VString "[object Object]"]>
    (<["price" := VNumber (5 # 1)%Q]> (<["name" := VString "DDR2 H1"]> ∅)).

Definition pages : gmap string Document :=
  list_to_map
    [ ("https://pcpartpicker.com", Fixture.listing "" []);
      ("https://pcpartpicker.com/products/headphones/#mt=ddr2",
       Fixture.listing "1" [first; second; first]) ].

Definition env : Env Q :=
  @Build_Env Q map customSerializers (Fixture.inheritedMethod customSerializers)
             Fixture.genericSerialize Fixture.serializeNumber
             (λ url, pages !! url).

End Inherit.

(** * Properties *)

Ltac unfold_bind := unfold mbind, mret, M_bind, M_ret in *.

(** ** Laws of the traversal monad *)

Section Laws.

Context {number : Type}.
Abbreviation M := (@M number).

Lemma bind_throws {A B} (m : M A) (f : A → M B) p e :
  result (m p) = inl e →
  bind m f p = mkOut (events (m p)) (page (m p)) (inl e).
Proof. intros H. unfold bind. by rewrite H. Qed.

Lemma bind_returns {A B} (m : M A) (f : A → M B) p a :
  result (m p) = inr a →
  bind m f p =
    mkOut (events (m p) ++ events (f a (page (m p))))
          (page (f a (page (m p)))) (result (f a (page (m p)))).
Proof. intros H. unfold bind. by rewrite H. Qed.

Lemma bind_result_inr {A B} (m : M A) (f : A → M B) p b :
  result (bind m f p) = inr b →
  ∃ a, result (m p) = inr a ∧ result (f a (page (m p))) = inr b.
Proof.
  unfold bind. destruct (result (m p)) as [e|a] eqn:E; simpl; [done|]. eauto.
Qed.

Lemma static_ret {A} (a : A) : static (@ret number A a).
Proof. by exists [], (inr a). Qed.

Lemma static_throw {A} e : static (@throw number A e).
Proof. by exists [], (inl e). Qed.

Lemma static_emit (ev : event number) :
  isSerializerCall ev = true → static (emit ev).
Proof. intros H. exists [ev], (inr tt). split; [by constructor|done]. Qed.

Lemma static_lift {A} (r : exn + A) : static (@lift number A r).
Proof. by exists [], r. Qed.

Lemma static_bind {A B} (m : M A) (f : A → M B) :
  static m → (∀ a, static (f a)) → static (bind m f).
Proof.
  intros (evs & r & Hevs & Hm) Hf. destruct r as [e|a].
  - exists evs, (inl e). split; [done|]. intros p. unfold bind. by rewrite Hm.
  - destruct (Hf a) as (evs' & r' & Hevs' & Hfa).
    exists (evs ++ evs'), r'. split; [by apply Forall_app|].
    intros p. unfold bind. rewrite Hm. simpl. by rewrite Hfa.
Qed.

Lemma static_foldM {A B} (body : B → A → M B) xs :
  (∀ acc x, static (body acc x)) → ∀ acc, static (foldM body xs acc).
Proof.
  intros Hbody. induction xs as [|x xs IH]; intros acc; simpl.
  - apply static_ret.
  - apply static_bind; auto.
Qed.

Lemma static_result {A} (m : M A) p p' :
  static m → result (m p) = result (m p').
Proof. intros (evs & r & _ & H). by rewrite !H. Qed.

Lemma static_events {A} (m : M A) p p' :
  static m → events (m p) = events (m p').
Proof. intros (evs & r & _ & H). by rewrite !H. Qed.

(** ** Loops stop at the first throw *)

Lemma bind_assoc {A B C} (m : M A) (f : A → M B) (g : B → M C) p :
  bind (bind m f) g p = bind m (λ a, bind (f a) g) p.
Proof.
  unfold bind. destruct (m p) as [evs p1 [e|a]]; simpl; [done|].
  destruct (f a p1) as [evs' p2 [e|b]]; simpl; [done|].
  by rewrite app_assoc.
Qed.

Lemma bind_ext {A B} (m : M A) (f g : A → M B) p :
  (∀ a q, f a q = g a q) → bind m f p = bind m g p.
Proof.
  intros H. unfold bind. destruct (result (m p)); [done|]. by rewrite H.
Qed.

Lemma bind_ret_l {A B} (a : A) (f : A → M B) p : bind (ret a) f p = f a p.
Proof. unfold bind, ret. simpl. by destruct (f a p). Qed.

Lemma foldM_app {A B} (body : B → A → M B) xs ys acc :
  ∀ p, foldM body (xs ++ ys) acc p = bind (foldM body xs acc) (foldM body ys) p.
Proof.
  revert acc. induction xs as [|x xs IH]; intros acc p; simpl.
  - by rewrite bind_ret_l.
  - rewrite bind_assoc. apply bind_ext. intros a q. apply IH.
Qed.

Lemma forM__app {A} (body : A → M unit) xs ys :
  ∀ p, forM_ body (xs ++ ys) p = bind (forM_ body xs) (λ _, forM_ body ys) p.
Proof.
  induction xs as [|x xs IH]; intros p; simpl.
  - by rewrite bind_ret_l.
  - rewrite bind_assoc. apply bind_ext. intros a q. apply IH.
Qed.

(** When the turn for [x] throws, the turns for [rest] never run. *)
Lemma foldM_stops {A B} (body : B → A → M B) done x rest acc p acc' e :
  result (foldM body done acc p) = inr acc' →
  result (body acc' x (page (foldM body done acc p))) = inl e →
  foldM body (done ++ x :: rest) acc p = foldM body (done ++ [x]) acc p ∧
  result (foldM body (done ++ x :: rest) acc p) = inl e.
Proof.
  intros Hdone Hx. rewrite !foldM_app.
  rewrite !(bind_returns _ _ _ _ Hdone). simpl.
  unfold bind. rewrite Hx. done.
Qed.

Lemma forM__stops {A} (body : A → M unit) done x rest p e :
  result (forM_ body done p) = inr tt →
  result (body x (page (forM_ body done p))) = inl e →
  forM_ body (done ++ x :: rest) p = forM_ body (done ++ [x]) p ∧
  result (forM_ body (done ++ x :: rest) p) = inl e.
Proof.
  intros Hdone Hx. rewrite !forM__app.
  rewrite !(bind_returns _ _ _ _ Hdone). simpl.
  unfold bind. rewrite Hx. done.
Qed.

End Laws.

(** ** Record extraction *)

Section Extraction.

Context {number : Type}.
Variable env : Env number.
Variable src : Source.

Abbreviation Part := (gmap string (Value number)).

Lemma static_eval {A} selector (found : option A) :
  static (@eval number A selector found).
Proof. destruct found; [apply static_ret | apply static_throw]. Qed.

Lemma static_callSerializeNumber value : static (callSerializeNumber env value).
Proof.
  unfold callSerializeNumber. unfold_bind.
  apply static_bind; [by apply static_emit | intros; apply static_lift].
Qed.

Lemma static_callGenericSerialize value type :
  static (callGenericSerialize env value type).
Proof.
  unfold callGenericSerialize. unfold_bind.
  apply static_bind; [by apply static_emit | intros; apply static_lift].
Qed.

Lemma static_callCustomSerializer endpoint field value :
  static (callCustomSerializer env endpoint field value).
Proof.
  unfold callCustomSerializer.
  destruct (customSerializers env !! endpoint) as [forEndpoint|];
    [|apply static_throw].
  destruct (getSerializer env endpoint forEndpoint field);
    [|apply static_throw]. unfold_bind.
  apply static_bind; [by apply static_emit | intros; apply static_lift].
Qed.

Lemma static_scrapeSpec endpoint serialized spec :
  static (scrapeSpec env endpoint serialized spec).
Proof.
  unfold scrapeSpec. unfold_bind.
  apply static_bind; [apply static_eval|]. intros specName.
  destruct (map env !! endpoint) as [forEndpoint|]; [|apply static_throw].
  destruct (forEndpoint !! specName) as [[field type]|];
    [|case_match; apply static_throw].
  repeat case_decide; try apply static_ret.
  - apply static_bind; [apply static_callCustomSerializer|].
    intros; apply static_ret.
  - apply static_bind; [apply static_callGenericSerialize|].
    intros; apply static_ret.
Qed.

Lemma static_scrapeProduct endpoint socketUrl productEl :
  static (scrapeProduct env src endpoint socketUrl productEl).
Proof.
  unfold scrapeProduct. unfold_bind.
  apply static_bind; [apply static_eval|]. intros title.
  apply static_bind; [apply static_eval|]. intros raw.
  apply static_bind.
  - destruct raw as [text|]; [|apply static_ret].
    case_decide; [apply static_ret|].
    apply static_bind; [apply static_callSerializeNumber|].
    intros; apply static_ret.
  - intros price. apply static_foldM. intros. apply static_scrapeSpec.
Qed.

Lemma static_scrapeProducts endpoint socketUrl productEls :
  static (scrapeProducts env src endpoint socketUrl productEls).
Proof.
  unfold scrapeProducts. apply static_foldM. intros acc productEl.
  unfold_bind. apply static_bind; [apply static_scrapeProduct|].
  intros; apply static_ret.
Qed.

(** *** One spec cell *)

Lemma scrapeSpec_empty endpoint forEndpoint label field type value serialized p :
  map env !! endpoint = Some forEndpoint →
  forEndpoint !! JS.trim label = Some (field, type) →
  JS.trim value = "" →
  scrapeSpec env endpoint serialized
             {| specLabel := Some label; innerText := value |} p
  = mkOut [] p (inr (<[field := VNull]> serialized)).
Proof.
  intros Hmap Hlabel Hvalue. unfold scrapeSpec. unfold_bind. simpl.
  rewrite bind_ret_l, Hmap, Hlabel. simpl. by rewrite decide_True.
Qed.

Lemma scrapeSpec_unmapped endpoint forEndpoint label value serialized p :
  map env !! endpoint = Some forEndpoint →
  forEndpoint !! JS.trim label = None →
  scrapeSpec env endpoint serialized
             {| specLabel := Some label; innerText := value |} p
  = mkOut [] p (inl (absentLabelError (JS.trim label))).
Proof.
  intros Hmap Hlabel. unfold scrapeSpec, absentLabelError. unfold_bind. simpl.
  rewrite bind_ret_l, Hmap, Hlabel. by case_match.
Qed.

(** A spec cell writes one field, the one its label is mapped to. *)
Lemma scrapeSpec_writes endpoint serialized spec p serialized' :
  result (scrapeSpec env endpoint serialized spec p) = inr serialized' →
  ∃ forEndpoint label field type v,
    specLabel spec = Some label ∧
    map env !! endpoint = Some forEndpoint ∧
    forEndpoint !! JS.trim label = Some (field, type) ∧
    serialized' = <[field := v]> serialized.
Proof.
  unfold scrapeSpec. unfold_bind. destruct (specLabel spec) as [label|].
  2:{ unfold bind, throw. simpl. done. }
  unfold eval, fmap, option_fmap, option_map. rewrite bind_ret_l.
  destruct (map env !! endpoint) as [forEndpoint|]; [|done].
  destruct (forEndpoint !! JS.trim label) as [[field type]|] eqn:E;
    [|by case_match].
  intros H. exists forEndpoint, label, field, type.
  repeat case_decide.
  - injection H as <-. by exists VNull.
  - apply bind_result_inr in H as (v & _ & [= <-]). by exists v.
  - apply bind_result_inr in H as (v & _ & [= <-]). by exists v.
Qed.

Lemma scrapeSpecs_keep endpoint key specs :
  (∀ forEndpoint label field type,
      map env !! endpoint = Some forEndpoint →
      forEndpoint !! label = Some (field, type) → field ≠ key) →
  ∀ (serialized serialized' : Part) p,
    result (foldM (scrapeSpec env endpoint) specs serialized p) = inr serialized' →
    serialized' !! key = serialized !! key.
Proof.
  intros Hkey. induction specs as [|spec specs IH]; intros serialized serialized' p; simpl.
  - by intros [= <-].
  - intros H. apply bind_result_inr in H as (mid & Hspec & Hrest).
    apply IH in Hrest. rewrite Hrest.
    apply scrapeSpec_writes in Hspec
      as (forEndpoint & label & field & type & v & _ & Hmap & Hlabel & ->).
    apply lookup_insert_ne. eauto.
Qed.

End Extraction.

(** ** URLs of later pages *)

Lemma length_append (s t : string) :
  String.length (s +:+ t) = (String.length s + String.length t)%nat.
Proof. induction s as [|c s IH]; simpl; [done|]. by rewrite IH. Qed.

Lemma append_assoc (s t u : string) : (s +:+ t) +:+ u = s +:+ t +:+ u.
Proof.
  induction s as [|c s IH]; [done|].
  change (String c ((s +:+ t) +:+ u) = String c (s +:+ t +:+ u)). by rewrite IH.
Qed.

Lemma fragment_then_page_differs (socketUrl n : string) :
  socketUrl +:+ "&page=" +:+ n ≠ "#page=" +:+ n.
Proof.
  intros H. destruct socketUrl as [|c rest]; [done|].
  apply (f_equal String.length) in H.
  simpl in H. rewrite ?length_append in H. simpl in H. lia.
Qed.

(** C2: the two copies do not build the URL of a later page by one rule.
    For every page after the first, the copy for memory generations keeps
    the variant's fragment in the URL it navigates to and the copy for CPU
    sockets drops it, so the two URLs differ for the same endpoint,
    variant and page. *)
Theorem page_urls_differ {number} (env : Env number) endpoint socketUrl currentPage p :
  (1 < currentPage)%nat →
  head (events (scrapePage env Motherboard.source endpoint socketUrl currentPage p))
    = Some (EvGoto (Motherboard.pageUrl endpoint socketUrl currentPage)) ∧
  head (events (scrapePage env Cpu.source endpoint socketUrl currentPage p))
    = Some (EvGoto (Cpu.pageUrl endpoint socketUrl currentPage)) ∧
  Motherboard.pageUrl endpoint socketUrl currentPage
    ≠ Cpu.pageUrl endpoint socketUrl currentPage ∧
  Motherboard.pageUrl endpoint socketUrl currentPage
    = fullUrl endpoint socketUrl +:+ "&page=" +:+ JS.numberToString currentPage ∧
  ∀ otherUrl,
    Cpu.pageUrl endpoint otherUrl currentPage
    = Cpu.pageUrl endpoint socketUrl currentPage.
Proof.
  intros Hpage. split_and!.
  - unfold scrapePage. unfold_bind. rewrite decide_True by done.
    rewrite bind_assoc. simpl pageUrl. unfold bind at 1, goto.
    by destruct (site env _).
  - unfold scrapePage. unfold_bind. rewrite decide_True by done.
    rewrite bind_assoc. simpl pageUrl. unfold bind at 1, goto.
    by destruct (site env _).
  - unfold Motherboard.pageUrl, Cpu.pageUrl. intros H.
    do 3 apply (inj (String.app _)) in H.
    simpl in H. injection H as H.
    exact (fragment_then_page_differs socketUrl (JS.numberToString currentPage) H).
  - unfold Motherboard.pageUrl, fullUrl.
    by rewrite !append_assoc.
  - done.
Qed.

Lemma page_urls_differ_witness :
  Cpu.pageUrl "cpu" "#k=27" 2 = "https://pcpartpicker.com/products/cpu/#page=2" ∧
  Motherboard.pageUrl "cpu" "#k=27" 2
    = "https://pcpartpicker.com/products/cpu/#k=27&page=2" ∧
  Motherboard.pageUrl "cpu" "#k=27" 2 ≠ Cpu.pageUrl "cpu" "#k=27" 2.
Proof.
  split; [reflexivity|]. split; [reflexivity|].
  apply (page_urls_differ Fixture.env "cpu" "#k=27" 2 blankPage). lia.
Defined.

(** ** One listed product *)

Section Product.

Context {number : Type}.
Variable env : Env number.
Variable src : Source.

Lemma callSerializeNumber_result value p n :
  result (callSerializeNumber env value p) = inr n →
  serializeNumber env value = inr n.
Proof. unfold callSerializeNumber. unfold_bind. by intros H. Qed.

(** A record that was built went through every step of the loop body. *)
Lemma scrapeProduct_returns endpoint socketUrl productEl p serialized :
  result (scrapeProduct env src endpoint socketUrl productEl p) = inr serialized →
  ∃ title raw price q,
    nameText productEl = Some title ∧
    priceText productEl = Some raw ∧
    priceFrom env raw price ∧
    result (foldM (scrapeSpec env endpoint) (specs productEl)
              (<["price" := price]>
                 (<["name" := VString (JS.stringOrUndefined
                                         (findSocketName src socketUrl)
                                       +:+ " " +:+ title)]> ∅)) q)
    = inr serialized.
Proof.
  unfold scrapeProduct. unfold_bind. intros H.
  apply bind_result_inr in H as (title & Htitle & H).
  apply bind_result_inr in H as (raw & Hraw & H).
  apply bind_result_inr in H as (price & Hprice & H).
  exists title, raw, price. eexists. split_and!; [| |..|exact H].
  - destruct (nameText productEl); by simplify_eq/=.
  - destruct (priceText productEl); by simplify_eq/=.
  - unfold priceFrom. destruct raw as [text|].
    + case_decide; [by simplify_eq/=|].
      apply bind_result_inr in Hprice as (n & Hn & [= <-]).
      apply callSerializeNumber_result in Hn. eauto.
    + by simplify_eq/=.
Qed.

Lemma keepsNameAndPrice_ne endpoint forEndpoint label field type :
  keepsNameAndPrice env endpoint →
  map env !! endpoint = Some forEndpoint →
  forEndpoint !! label = Some (field, type) →
  field ≠ "name" ∧ field ≠ "price".
Proof.
  unfold keepsNameAndPrice. intros H Hmap Hlabel. rewrite Hmap in H.
  exact (H label (field, type) Hlabel).
Qed.

(** With a table that leaves [name] and [price] alone, the record keeps
    what the loop body put there first. *)
Lemma scrapeProduct_fields endpoint socketUrl productEl p serialized :
  keepsNameAndPrice env endpoint →
  result (scrapeProduct env src endpoint socketUrl productEl p) = inr serialized →
  ∃ title raw price,
    nameText productEl = Some title ∧
    priceText productEl = Some raw ∧
    priceFrom env raw price ∧
    serialized !! "name"
      = Some (VString (JS.stringOrUndefined (findSocketName src socketUrl)
                       +:+ " " +:+ title)) ∧
    serialized !! "price" = Some price.
Proof.
  intros Hkeep H.
  apply scrapeProduct_returns in H as (title & raw & price & q & ? & ? & ? & H).
  exists title, raw, price. split_and!; try done.
  - erewrite scrapeSpecs_keep; [| |exact H].
    + by rewrite lookup_insert_ne, lookup_insert_eq.
    + intros ???? Hm Hl. by destruct (keepsNameAndPrice_ne _ _ _ _ _ Hkeep Hm Hl).
  - erewrite scrapeSpecs_keep; [| |exact H].
    + by rewrite lookup_insert_eq.
    + intros ???? Hm Hl. by destruct (keepsNameAndPrice_ne _ _ _ _ _ Hkeep Hm Hl).
Qed.

(** C4: in every record that is built, [price] is null exactly when the
    raw price text is null, empty or only white space; otherwise it is
    the number [serializeNumber] returns for the raw text.  The mapping
    table is taken not to name a field [price]. *)
Theorem price_null_iff_blank endpoint socketUrl productEl p serialized :
  keepsNameAndPrice env endpoint →
  result (scrapeProduct env src endpoint socketUrl productEl p) = inr serialized →
  ∃ raw,
    priceText productEl = Some raw ∧
    (serialized !! "price" = Some VNull ↔ isBlank raw) ∧
    (∀ text, raw = Some text → JS.trim text ≠ "" →
       ∃ n, serializeNumber env text = inr n ∧
            serialized !! "price" = Some (VNumber n)).
Proof.
  intros Hkeep H.
  apply scrapeProduct_fields in H
    as (title & raw & price & _ & Hraw & Hprice & _ & Hfield); [|done].
  exists raw. split; [done|]. rewrite Hfield. unfold priceFrom in Hprice.
  destruct raw as [text|]; simpl.
  - case_decide as Hblank.
    + subst price. split; [done|]. intros ? [= <-] ?. done.
    + destruct Hprice as (n & Hn & ->). split.
      * split; [done|]. intros ?. done.
      * intros ? [= <-] _. eauto.
  - subst price. split; [done|]. intros ? [=].
Qed.

End Product.

(** ** Counting serializer calls *)

Section Calls.

Context {number : Type}.
Variable env : Env number.
Variable src : Source.

Lemma events_bind {A B} (m : M A) (f : A → M B) p :
  events (bind m f p)
  = events (m p) ++ match result (m p) return list (event number) with
                    | inr a => events (f a (page (m p)))
                    | inl _ => []
                    end.
Proof.
  unfold bind. destruct (result (m p)); simpl; [|done]. by rewrite app_nil_r.
Qed.






End Calls.

(** ** The traversal, page by page *)

Section Traversal.

Context {number : Type}.
Variable env : Env number.
Variable src : Source.
Variable endpoint : string.

Abbreviation M := (@M number).
Abbreviation Out := (@Out number).
Abbreviation complete := (completePage env src endpoint).

Lemma yields_app (evs evs' : list (event number)) :
  yields (evs ++ evs') = yields evs ++ yields evs'.
Proof. apply omap_app. Qed.

Lemma gotos_app (evs evs' : list (event number)) :
  gotos (evs ++ evs') = gotos evs ++ gotos evs'.
Proof. apply omap_app. Qed.

Lemma calls_yield_nothing (evs : list (event number)) :
  Forall (λ ev, isSerializerCall ev = true) evs →
  yields evs = [] ∧ gotos evs = [].
Proof.
  induction 1 as [|ev evs Hev _ [IHy IHg]]; [done|].
  destruct ev; try done; simpl; by rewrite ?IHy, ?IHg.
Qed.

Lemma drain_from (evs : list (event number)) acc :
  fold_left (λ allParts ev,
               match ev with
               | EvYield pageParts => allParts ++ pageParts
               | _ => allParts
               end) evs acc
  = acc ++ concat (yields evs).
Proof.
  revert acc. induction evs as [|ev evs IH]; intros acc; simpl.
  - by rewrite app_nil_r.
  - rewrite IH. destruct ev; simpl; try done. by rewrite app_assoc.
Qed.

Lemma drain_yields (evs : list (event number)) :
  drain evs = concat (yields evs).
Proof. unfold drain. by rewrite drain_from. Qed.

(** Sequencing two outcomes that follow their lists. *)
Lemma follows_bind P (m : M unit) (f : unit → M unit) p b1 u1 b2 u2 :
  follows P (m p) b1 u1 →
  (result (m p) = inr tt → follows P (f tt (page (m p))) b2 u2) →
  follows P (bind m f p) (b1 ++ b2) (u1 ++ u2).
Proof.
  intros (Hy & Hg & Hdone & HP) Hnext. unfold follows.
  destruct (result (m p)) as [e|[]] eqn:Hres.
  - rewrite (bind_throws _ _ _ _ Hres). simpl.
    split_and!; [by apply prefix_app_r..|done|done].
  - rewrite (bind_returns _ _ _ _ Hres). simpl.
    destruct (Hdone eq_refl) as [Hb Hu].
    destruct (Hnext eq_refl) as (Hy' & Hg' & Hdone' & HP').
    rewrite yields_app, gotos_app, Hb, Hu. split_and!.
    + by apply prefix_app.
    + by apply prefix_app.
    + intros Hr. by destruct (Hdone' Hr) as [-> ->].
    + apply Forall_app. by rewrite <- Hb.
Qed.

Lemma follows_ret P p : follows P (ret tt p : Out unit) [] [].
Proof. by split_and!. Qed.

(** *** One page *)

Lemma scrapePage_loaded socketUrl currentPage p d :
  (if decide (1 < currentPage)%nat
   then site env (pageUrl src endpoint socketUrl currentPage)
   else Some p) = Some d →
  let o := scrapePage env src endpoint socketUrl currentPage p in
  gotos (events o)
    = (if decide (1 < currentPage)%nat
       then [pageUrl src endpoint socketUrl currentPage] else []) ∧
  match recordsOf env src endpoint socketUrl d with
  | inr pageProducts => result o = inr tt ∧ yields (events o) = [pageProducts]
  | inl e => result o = inl e ∧ yields (events o) = []
  end.
Proof.
  intros Hd. unfold recordsOf.
  destruct (static_scrapeProducts env src endpoint socketUrl (products d))
    as (evs & r & Hevs & Hrun).
  apply calls_yield_nothing in Hevs as [Hy Hg].
  unfold scrapePage. unfold_bind.
  unfold bind, goto, waitForNetworkIdle, productElements, yield, emit, ret.
  case_decide.
  - rewrite Hd. simpl. rewrite !Hrun. simpl.
    destruct r; simpl; rewrite ?yields_app, ?gotos_app, ?Hy, ?Hg; done.
  - injection Hd as ->. simpl. rewrite !Hrun. simpl.
    destruct r; simpl; rewrite ?yields_app, ?gotos_app, ?Hy, ?Hg; done.
Qed.

Lemma scrapePage_unreachable socketUrl currentPage p :
  (1 < currentPage)%nat →
  site env (pageUrl src endpoint socketUrl currentPage) = None →
  scrapePage env src endpoint socketUrl currentPage p
  = mkOut [EvGoto (pageUrl src endpoint socketUrl currentPage)] p
          (inl (NavigationError (pageUrl src endpoint socketUrl currentPage))).
Proof.
  intros Hpage Hsite. unfold scrapePage. unfold_bind.
  unfold bind, goto. rewrite decide_True by done. by rewrite Hsite.
Qed.

Lemma scrapePage_follows entry currentPage p :
  entry ∈ cpuSockets src →
  (¬ (1 < currentPage)%nat →
   site env (urlOfPage src endpoint entry.2 currentPage) = Some p) →
  follows complete (scrapePage env src endpoint entry.2 currentPage p)
          [batchOf env src endpoint entry.2 currentPage]
          (if decide (1 < currentPage)%nat
           then [urlOfPage src endpoint entry.2 currentPage] else []).
Proof.
  intros Hentry Hfirst. unfold follows.
  destruct (if decide (1 < currentPage)%nat
            then site env (pageUrl src endpoint entry.2 currentPage)
            else Some p) as [d|] eqn:Hd.
  - assert (site env (urlOfPage src endpoint entry.2 currentPage) = Some d) as Hsite.
    { unfold urlOfPage in *. case_decide; [done|].
      injection Hd as <-. by apply Hfirst. }
    destruct (scrapePage_loaded _ _ _ _ Hd) as [Hg Hrec].
    rewrite Hg. unfold batchOf. rewrite Hsite.
    assert (urlOfPage src endpoint entry.2 currentPage
            = if decide (1 < currentPage)%nat
              then pageUrl src endpoint entry.2 currentPage
              else fullUrl endpoint entry.2) as Hurl by done.
    destruct (recordsOf env src endpoint entry.2 d) as [e|pageProducts] eqn:Hrecords.
    + destruct Hrec as [Hres ->]. rewrite Hres.
      split_and!; [apply prefix_nil|by case_decide; rewrite ?Hurl|done|done].
    + destruct Hrec as [Hres ->].
      split_and!; [done|by case_decide; rewrite ?Hurl| |].
      * intros _. split; [done|]. unfold urlOfPage. by case_decide.
      * constructor; [|done]. by exists entry, currentPage, d.
  - case_decide as Hpage; [|done].
    rewrite (scrapePage_unreachable _ _ _ Hpage Hd). simpl.
    unfold urlOfPage. rewrite decide_True by done.
    split_and!; [apply prefix_nil|done|done|done].
Qed.

(** *** The pages of a variant *)

Lemma laterPages_follow entry currentPages :
  entry ∈ cpuSockets src →
  Forall (λ currentPage, 1 < currentPage)%nat currentPages →
  ∀ p, follows complete
         (forM_ (scrapePage env src endpoint entry.2) currentPages p)
         (batchOf env src endpoint entry.2 <$> currentPages)
         (urlOfPage src endpoint entry.2 <$> currentPages).
Proof.
  intros Hentry. induction 1 as [|currentPage currentPages Hpage _ IH]; intros p.
  - apply follows_ret.
  - simpl forM_.
    apply (follows_bind _ _ _ _ [_] [_]); [|intros _; apply IH].
    pose proof (scrapePage_follows entry currentPage p Hentry) as H.
    rewrite decide_True in H by done. apply H. intros ?. lia.
Qed.

Lemma allPages_follow entry numPages p :
  entry ∈ cpuSockets src →
  site env (fullUrl endpoint entry.2) = Some p →
  follows complete
    (forM_ (scrapePage env src endpoint entry.2) (pageNumbers numPages) p)
    (batchOf env src endpoint entry.2 <$> pageNumbers numPages)
    (urlOfPage src endpoint entry.2 <$> tail (pageNumbers numPages)).
Proof.
  intros Hentry Hsite. unfold pageNumbers.
  destruct numPages as [n|]; [|apply follows_ret].
  destruct (Z.to_nat n) as [|k]; [apply follows_ret|].
  change (seq 1 (S k)) with (1%nat :: seq 2 k). simpl forM_. simpl tail.
  apply (follows_bind _ _ _ _ [_] [] _ _).
  - pose proof (scrapePage_follows entry 1 p Hentry) as H.
    rewrite decide_False in H by lia. apply H. intros _.
    unfold urlOfPage. by rewrite decide_False by lia.
  - intros _. apply laterPages_follow; [done|].
    apply Forall_forall. intros currentPage [? _]%elem_of_seq. lia.
Qed.

(** *** One variant *)

Lemma scrapeVariant_pages entry p d lastItem :
  site env (fullUrl endpoint entry.2) = Some d →
  pagination d = Some (Some lastItem) →
  scrapeVariant env src endpoint entry p
  = let o := forM_ (scrapePage env src endpoint entry.2)
                   (pageNumbers (JS.parseInt lastItem)) d in
    mkOut (EvGoto (fullUrl endpoint entry.2) :: EvNetworkIdle :: events o)
          (page o) (result o).
Proof.
  intros Hsite Hpagination. unfold scrapeVariant. unfold_bind.
  unfold bind, goto, waitForNetworkIdle, emit, waitForPagination, eval, ret.
  rewrite Hsite. simpl. rewrite Hpagination. simpl.
  by destruct (result _).
Qed.

Lemma scrapeVariant_aborts entry p :
  match site env (fullUrl endpoint entry.2) with
  | Some d => ∀ lastItem, pagination d ≠ Some (Some lastItem)
  | None => True
  end →
  ∃ evs q e,
    scrapeVariant env src endpoint entry p = mkOut evs q (inl e) ∧
    yields evs = [] ∧ gotos evs = [fullUrl endpoint entry.2].
Proof.
  intros H. unfold scrapeVariant. unfold_bind.
  unfold bind, goto, waitForNetworkIdle, emit, waitForPagination, eval, ret, throw.
  destruct (site env (fullUrl endpoint entry.2)) as [d|]; simpl;
    [|eexists _, _, _; split_and!; reflexivity].
  destruct (pagination d) as [[lastItem|]|]; simpl;
    [|eexists _, _, _; split_and!; reflexivity..].
  by destruct (H lastItem).
Qed.

Lemma scrapeVariant_follows entry p :
  entry ∈ cpuSockets src →
  follows complete (scrapeVariant env src endpoint entry p)
          (batchesOfVariant env src endpoint entry)
          (urlsOfVariant env src endpoint entry).
Proof.
  intros Hentry. unfold batchesOfVariant, urlsOfVariant.
  rewrite fmap_cons.
  assert (urlOfPage src endpoint entry.2 1 = fullUrl endpoint entry.2) as ->.
  { unfold urlOfPage. by rewrite decide_False by lia. }
  destruct (site env (fullUrl endpoint entry.2)) as [d|] eqn:Hsite.
  - destruct (pagination d) as [[lastItem|]|] eqn:Hpagination.
    + rewrite (scrapeVariant_pages _ p _ _ Hsite Hpagination).
      assert (numPagesOf env endpoint entry.2 = JS.parseInt lastItem) as ->.
      { unfold numPagesOf. rewrite Hsite. simpl. by rewrite Hpagination. }
      destruct (allPages_follow entry (JS.parseInt lastItem) d Hentry Hsite)
        as (Hy & Hg & Hdone & HP).
      split_and!; simpl; [done|by apply prefix_cons| |done].
      intros Hr. by destruct (Hdone Hr) as [-> ->].
    + destruct (scrapeVariant_aborts entry p) as (evs & q & e & -> & Hy & Hg).
      { rewrite Hsite. intros ?. by rewrite Hpagination. }
      split_and!; simpl; rewrite ?Hy, ?Hg;
        [apply prefix_nil|by apply prefix_cons, prefix_nil|done|done].
    + destruct (scrapeVariant_aborts entry p) as (evs & q & e & -> & Hy & Hg).
      { rewrite Hsite. intros ?. by rewrite Hpagination. }
      split_and!; simpl; rewrite ?Hy, ?Hg;
        [apply prefix_nil|by apply prefix_cons, prefix_nil|done|done].
  - destruct (scrapeVariant_aborts entry p) as (evs & q & e & -> & Hy & Hg).
    { by rewrite Hsite. }
    split_and!; simpl; rewrite ?Hy, ?Hg;
      [apply prefix_nil|by apply prefix_cons, prefix_nil|done|done].
Qed.

(** *** A traversal that ends normally has read every page *)

Lemma pageNumbers_seq numPages :
  pageNumbers numPages = seq 1 (Z.to_nat (default 0 numPages)).
Proof. by destruct numPages. Qed.

Lemma static_yields {A} (m : M A) p : static m → yields (events (m p)) = [].
Proof.
  intros (evs & r & Hevs & H). rewrite H. simpl.
  by apply calls_yield_nothing in Hevs as [-> _].
Qed.

(** A page whose document is loaded: the navigation if it is a later
    page, the serializer calls of its products, and the batch if none of
    them threw. *)
Lemma scrapePage_run socketUrl currentPage p d :
  (if decide (1 < currentPage)%nat
   then site env (pageUrl src endpoint socketUrl currentPage)
   else Some p) = Some d →
  scrapePage env src endpoint socketUrl currentPage p
  = mkOut ((if decide (1 < currentPage)%nat
            then [EvGoto (pageUrl src endpoint socketUrl currentPage);
                  EvNetworkIdle]
            else [])
           ++ events (scrapeProducts env src endpoint socketUrl (products d) d)
           ++ match result (scrapeProducts env src endpoint socketUrl
                              (products d) d) with
              | inr pageProducts => [EvYield pageProducts]
              | inl _ => []
              end)
          d
          (match result (scrapeProducts env src endpoint socketUrl
                           (products d) d) with
           | inr _ => inr tt
           | inl e => inl e
           end).
Proof.
  intros Hd.
  destruct (static_scrapeProducts env src endpoint socketUrl (products d))
    as (evs & r & _ & Hrun).
  unfold scrapePage. unfold_bind.
  unfold bind, goto, waitForNetworkIdle, productElements, yield, emit, ret.
  case_decide.
  - rewrite Hd. simpl. rewrite !Hrun. simpl. destruct r; simpl; [|done].
    by rewrite app_nil_r.
  - injection Hd as ->. simpl. rewrite !Hrun. simpl. destruct r; simpl; [|done].
    by rewrite app_nil_r.
Qed.

Lemma scrapePage_done socketUrl currentPage p :
  (¬ (1 < currentPage)%nat →
   site env (urlOfPage src endpoint socketUrl currentPage) = Some p) →
  result (scrapePage env src endpoint socketUrl currentPage p) = inr tt →
  pageRead env src endpoint socketUrl currentPage.
Proof.
  intros Hfirst Hdone.
  destruct (if decide (1 < currentPage)%nat
            then site env (pageUrl src endpoint socketUrl currentPage)
            else Some p) as [d|] eqn:Hd.
  - assert (site env (urlOfPage src endpoint socketUrl currentPage) = Some d)
      as Hsite.
    { unfold urlOfPage in *. case_decide; [done|].
      injection Hd as <-. by apply Hfirst. }
    rewrite (scrapePage_run _ _ _ _ Hd) in Hdone. simpl in Hdone.
    destruct (result (scrapeProducts env src endpoint socketUrl (products d) d))
      as [e|pageProducts] eqn:Hrecords; [done|].
    by exists d, pageProducts.
  - case_decide as Hpage; [|done].
    by rewrite (scrapePage_unreachable _ _ _ Hpage Hd) in Hdone.
Qed.

Lemma laterPages_done socketUrl currentPages :
  Forall (λ currentPage, 1 < currentPage)%nat currentPages →
  ∀ p,
    result (forM_ (scrapePage env src endpoint socketUrl) currentPages p) = inr tt →
    Forall (pageRead env src endpoint socketUrl) currentPages.
Proof.
  induction 1 as [|currentPage currentPages Hpage _ IH]; intros p Hdone; [done|].
  simpl in Hdone. apply bind_result_inr in Hdone as ([] & Hfirst & Hrest).
  constructor; [|by eapply IH].
  eapply scrapePage_done; [|done]. intros ?. lia.
Qed.

Lemma allPages_done socketUrl numPages p :
  site env (fullUrl endpoint socketUrl) = Some p →
  result (forM_ (scrapePage env src endpoint socketUrl) (pageNumbers numPages) p)
  = inr tt →
  Forall (pageRead env src endpoint socketUrl) (pageNumbers numPages).
Proof.
  intros Hsite. unfold pageNumbers.
  destruct numPages as [n|]; [|done].
  destruct (Z.to_nat n) as [|k]; [done|].
  change (seq 1 (S k)) with (1%nat :: seq 2 k). simpl forM_. intros Hdone.
  apply bind_result_inr in Hdone as ([] & Hfirst & Hrest).
  constructor.
  - eapply scrapePage_done; [|done]. intros _.
    unfold urlOfPage. by rewrite decide_False by lia.
  - eapply laterPages_done; [|done].
    apply Forall_forall. intros currentPage [? _]%elem_of_seq. lia.
Qed.

Lemma scrapeVariant_done entry p :
  result (scrapeVariant env src endpoint entry p) = inr tt →
  Forall (pageRead env src endpoint entry.2)
         (pageNumbers (numPagesOf env endpoint entry.2)).
Proof.
  intros Hdone.
  destruct (site env (fullUrl endpoint entry.2)) as [d|] eqn:Hsite.
  - destruct (pagination d) as [[lastItem|]|] eqn:Hpagination.
    + rewrite (scrapeVariant_pages _ p _ _ Hsite Hpagination) in Hdone.
      simpl in Hdone.
      assert (numPagesOf env endpoint entry.2 = JS.parseInt lastItem) as ->.
      { unfold numPagesOf. rewrite Hsite. simpl. by rewrite Hpagination. }
      by eapply allPages_done.
    + destruct (scrapeVariant_aborts entry p) as (evs & q & e & Heq & _).
      { rewrite Hsite. intros ?. by rewrite Hpagination. }
      by rewrite Heq in Hdone.
    + destruct (scrapeVariant_aborts entry p) as (evs & q & e & Heq & _).
      { rewrite Hsite. intros ?. by rewrite Hpagination. }
      by rewrite Heq in Hdone.
  - destruct (scrapeVariant_aborts entry p) as (evs & q & e & Heq & _).
    { by rewrite Hsite. }
    by rewrite Heq in Hdone.
Qed.

Lemma scrapeVariants_done entries :
  ∀ p,
    result (forM_ (scrapeVariant env src endpoint) entries p) = inr tt →
    Forall (λ entry : string * string,
              Forall (pageRead env src endpoint entry.2)
                     (pageNumbers (numPagesOf env endpoint entry.2)))
           entries.
Proof.
  induction entries as [|entry entries IH]; intros p Hdone; [done|].
  simpl in Hdone. apply bind_result_inr in Hdone as ([] & Hfirst & Hrest).
  constructor; [by eapply scrapeVariant_done|by eapply IH].
Qed.

(** *** All variants *)

Lemma scrapeVariants_follow entries :
  entries ⊆ cpuSockets src →
  ∀ p, follows complete (forM_ (scrapeVariant env src endpoint) entries p)
         (flat_map (batchesOfVariant env src endpoint) entries)
         (flat_map (urlsOfVariant env src endpoint) entries).
Proof.
  induction entries as [|entry entries IH]; intros Hentries p.
  - apply follows_ret.
  - apply (follows_bind _ (scrapeVariant env src endpoint entry)
                        (λ _, forM_ (scrapeVariant env src endpoint) entries) p
                        (batchesOfVariant env src endpoint entry)
                        (urlsOfVariant env src endpoint entry)).
    + apply scrapeVariant_follows. apply Hentries. by left.
    + intros _. apply IH. intros e He. apply Hentries. by right.
Qed.

Lemma scrape_follows p :
  follows complete (scrape env src endpoint p)
          (batchesInOrder env src endpoint) (navigationsInOrder env src endpoint).
Proof. by apply scrapeVariants_follow. Qed.

End Traversal.

(** ** What a category leaves behind *)

Section Category.

Context {number : Type}.
Variable env : Env number.
Variable src : Source.

Abbreviation Record := (gmap string (Value number)).

(** A batch holds one record per product, in the order of the page. *)
Lemma scrapeProducts_records endpoint socketUrl productEls :
  ∀ (acc : list Record) p batch,
    result (foldM (λ pageProducts productEl,
                     serialized ← scrapeProduct env src endpoint socketUrl productEl;
                     mret (pageProducts ++ [serialized]))
                  productEls acc p) = inr batch →
    ∃ new,
      batch = acc ++ new ∧
      Forall2 (λ productEl record,
                 ∃ q, result (scrapeProduct env src endpoint socketUrl productEl q)
                      = inr record)
              productEls new.
Proof.
  induction productEls as [|productEl productEls IH]; intros acc p batch H.
  - injection H as <-. exists []. by rewrite app_nil_r.
  - simpl in H. unfold_bind.
    apply bind_result_inr in H as (acc' & Hstep & Hrest).
    apply bind_result_inr in Hstep as (record & Hrecord & [= <-]).
    apply IH in Hrest as (new & -> & Hnew).
    exists (record :: new). split; [by rewrite <- app_assoc|].
    constructor; [by eauto|done].
Qed.

Lemma recordsOf_products endpoint socketUrl d batch :
  recordsOf env src endpoint socketUrl d = inr batch →
  Forall2 (λ productEl record,
             ∃ q, result (scrapeProduct env src endpoint socketUrl productEl q)
                  = inr record)
          (products d) batch.
Proof.
  unfold recordsOf, scrapeProducts. intros H.
  by apply scrapeProducts_records in H as (new & -> & Hnew).
Qed.

Lemma task_allParts endpoint :
  allParts (task env src endpoint)
  = concat (yields (events (scrape env src endpoint blankPage))).
Proof. unfold task. simpl. apply drain_yields. Qed.

Lemma task_aborted endpoint e :
  aborted (task env src endpoint) = Some e
  ↔ result (scrape env src endpoint blankPage) = inl e.
Proof.
  unfold task. simpl.
  destruct (result (scrape env src endpoint blankPage)) as [e'|[]]; naive_solver.
Qed.

Lemma task_finished endpoint :
  aborted (task env src endpoint) = None
  ↔ result (scrape env src endpoint blankPage) = inr tt.
Proof.
  unfold task. simpl.
  destruct (result (scrape env src endpoint blankPage)) as [e'|[]]; naive_solver.
Qed.

Lemma seeded_run endpoints :
  result (seed env blankPage) = inr tt →
  scrapeInParallel env src endpoints = task env src <$> endpoints.
Proof. unfold scrapeInParallel. by intros ->. Qed.

(** *** The batches, written out *)

Lemma batchesInOrder_pages endpoint :
  batchesInOrder env src endpoint
  = flat_map (λ entry : string * string,
                batchOf env src endpoint entry.2
                  <$> seq 1 (Z.to_nat (default 0 (numPagesOf env endpoint entry.2))))
             (cpuSockets src).
Proof.
  unfold batchesInOrder, batchesOfVariant. apply flat_map_ext.
  intros entry. by rewrite pageNumbers_seq.
Qed.

(** Every page a traversal had to read, if it ended normally: the page is
    on the site under its URL and its batch has a record for each of its
    products, in their order. *)
Lemma scrape_done endpoint p (entry : string * string) currentPage :
  result (scrape env src endpoint p) = inr tt →
  entry ∈ cpuSockets src →
  (1 ≤ currentPage)%nat →
  Z.of_nat currentPage ≤ default 0 (numPagesOf env endpoint entry.2) →
  ∃ d,
    site env (urlOfPage src endpoint entry.2 currentPage) = Some d ∧
    Forall2 (λ productEl record,
               ∃ q, result (scrapeProduct env src endpoint entry.2 productEl q)
                    = inr record)
            (products d) (batchOf env src endpoint entry.2 currentPage).
Proof.
  intros Hdone Hentry Hfirst Hlast.
  apply scrapeVariants_done in Hdone.
  rewrite Forall_forall in Hdone. specialize (Hdone entry Hentry).
  rewrite pageNumbers_seq, Forall_forall in Hdone.
  destruct (Hdone currentPage) as (d & pageProducts & Hsite & Hrecords).
  { apply elem_of_seq. lia. }
  exists d. split; [done|]. unfold batchOf. rewrite Hsite, Hrecords.
  by apply recordsOf_products.
Qed.

(** C7: batches are yielded variant by variant in the declared order of
    the table, and within a variant page 1, page 2, ... up to the number
    the pagination control of the variant shows; what is handed to the
    sink is their concatenation in that order.  The batch of a page is
    read from the document under the URL of that page and holds one
    record for each product row of it, in row order.  A traversal that
    throws has yielded a prefix of that sequence. *)
Theorem batches_in_declared_order endpoint :
  yields (events (scrape env src endpoint blankPage))
    `prefix_of`
    flat_map (λ entry : string * string,
                batchOf env src endpoint entry.2
                  <$> seq 1 (Z.to_nat (default 0 (numPagesOf env endpoint entry.2))))
             (cpuSockets src) ∧
  allParts (task env src endpoint)
    = concat (yields (events (scrape env src endpoint blankPage))) ∧
  (result (scrape env src endpoint blankPage) = inr tt →
   yields (events (scrape env src endpoint blankPage))
     = flat_map (λ entry : string * string,
                   batchOf env src endpoint entry.2
                     <$> seq 1 (Z.to_nat
                                  (default 0 (numPagesOf env endpoint entry.2))))
                (cpuSockets src) ∧
   allParts (task env src endpoint)
     = concat (flat_map (λ entry : string * string,
                           batchOf env src endpoint entry.2
                             <$> seq 1 (Z.to_nat
                                          (default 0
                                             (numPagesOf env endpoint entry.2))))
                        (cpuSockets src)) ∧
   ∀ (entry : string * string) currentPage,
     entry ∈ cpuSockets src →
     (1 ≤ currentPage)%nat →
     Z.of_nat currentPage ≤ default 0 (numPagesOf env endpoint entry.2) →
     ∃ d,
       site env (if decide (1 < currentPage)%nat
                 then pageUrl src endpoint entry.2 currentPage
                 else fullUrl endpoint entry.2) = Some d ∧
       Forall2 (λ productEl record,
                  ∃ q, result (scrapeProduct env src endpoint entry.2 productEl q)
                       = inr record)
               (products d) (batchOf env src endpoint entry.2 currentPage)).
Proof.
  destruct (scrape_follows env src endpoint blankPage) as (Hy & _ & Hdone & _).
  rewrite batchesInOrder_pages in Hy, Hdone.
  split_and!; [done|apply task_allParts|].
  intros Hr. destruct (Hdone Hr) as [Hb _]. split_and!.
  - done.
  - rewrite task_allParts. by rewrite Hb.
  - intros entry currentPage Hentry Hfirst Hlast.
    by apply (scrape_done endpoint blankPage).
Qed.


Lemma yielded_pages_whole endpoint p :
  Forall (λ batch,
            ∃ (entry : string * string) currentPage d,
              entry ∈ cpuSockets src ∧
              site env (urlOfPage src endpoint entry.2 currentPage) = Some d ∧
              recordsOf env src endpoint entry.2 d = inr batch ∧
              length batch = length (products d))
         (yields (events (scrape env src endpoint p))).
Proof.
  destruct (scrape_follows env src endpoint p) as (_ & _ & _ & HP).
  eapply Forall_impl; [exact HP|]. simpl.
  intros batch (entry & currentPage & d & Hentry & Hsite & Hrecords).
  exists entry, currentPage, d. split_and!; [done..|].
  apply recordsOf_products in Hrecords. symmetry. by eapply Forall2_length.
Qed.

(** C1, as the code has it: the error of a traversal is caught at the
    category boundary and the run goes on; what reaches the sink is the
    concatenation of the batches yielded before the throw.  Each of them
    holds all the products of one page: the records already built on
    the page that failed are not among them. *)
Theorem partial_result_is_whole_pages endpoints endpoint e :
  result (seed env blankPage) = inr tt →
  endpoint ∈ endpoints →
  result (scrape env src endpoint blankPage) = inl e →
  scrapeInParallel env src endpoints = task env src <$> endpoints ∧
  task env src endpoint ∈ scrapeInParallel env src endpoints ∧
  aborted (task env src endpoint) = Some e ∧
  allParts (task env src endpoint)
    = concat (yields (events (scrape env src endpoint blankPage))) ∧
  yields (events (scrape env src endpoint blankPage))
    `prefix_of` batchesInOrder env src endpoint ∧
  Forall (λ batch,
            ∃ (entry : string * string) currentPage d,
              entry ∈ cpuSockets src ∧
              site env (urlOfPage src endpoint entry.2 currentPage) = Some d ∧
              recordsOf env src endpoint entry.2 d = inr batch ∧
              length batch = length (products d))
         (yields (events (scrape env src endpoint blankPage))).
Proof.
  intros Hseed Hin Hthrown. rewrite (seeded_run _ Hseed).
  split_and!.
  - done.
  - by apply list_elem_of_fmap_2.
  - by apply task_aborted.
  - apply task_allParts.
  - by destruct (scrape_follows env src endpoint blankPage) as (Hy & _).
  - apply yielded_pages_whole.
Qed.

(** C8, as the code has it: once the first job has reached the site,
    every queued endpoint gets one report, complete or partial, and a
    warning with the endpoint and the error exactly when its traversal
    threw. *)
Theorem one_report_per_queued_endpoint endpoints :
  result (seed env blankPage) = inr tt →
  category <$> scrapeInParallel env src endpoints = endpoints ∧
  ∀ report, report ∈ scrapeInParallel env src endpoints →
    allParts report
      = concat (yields (events (scrape env src (category report) blankPage))) ∧
    (∀ e, aborted report = Some e
          ↔ result (scrape env src (category report) blankPage) = inl e) ∧
    (aborted report = None →
     allParts report = concat (batchesInOrder env src (category report))).
Proof.
  intros Hseed. rewrite (seeded_run _ Hseed). split.
  - rewrite <- list_fmap_compose. by rewrite <- (list_fmap_id endpoints) at 2.
  - intros report (endpoint & -> & _)%list_elem_of_fmap.
    change (category (task env src endpoint)) with endpoint.
    split_and!; [apply task_allParts|apply task_aborted|].
    intros Hdone%task_finished. rewrite task_allParts.
    destruct (scrape_follows env src endpoint blankPage) as (_ & _ & H & _).
    by destruct (H Hdone) as [-> _].
Qed.

(** *** The first throw of a traversal *)

(** A product with a cell that throws: the cells after it are not read. *)
Lemma scrapeProduct_cut endpoint socketUrl productEl before cell after p mid evs e :
  specs productEl = before ++ cell :: after →
  result (scrapeProduct env src endpoint socketUrl (withSpecs productEl before) p)
  = inr mid →
  (∀ serialized q, scrapeSpec env endpoint serialized cell q = mkOut evs q (inl e)) →
  result (scrapeProduct env src endpoint socketUrl productEl p) = inl e ∧
  events (scrapeProduct env src endpoint socketUrl productEl p)
  = events (scrapeProduct env src endpoint socketUrl (withSpecs productEl before) p)
    ++ evs.
Proof.
  intros Hspecs Hbefore Hcell. revert Hbefore.
  unfold scrapeProduct, withSpecs. simpl. rewrite Hspecs. unfold_bind.
  destruct (nameText productEl) as [title|]; [|done].
  destruct (priceText productEl) as [raw|]; [|done].
  unfold eval. rewrite !bind_ret_l. intros Hbefore.
  apply bind_result_inr in Hbefore as (price & Hprice & Hfold).
  rewrite !(bind_returns _ _ _ _ Hprice). simpl.
  rewrite foldM_app, (bind_returns _ _ _ _ Hfold). simpl.
  rewrite (bind_throws _ _ _ e) by (by rewrite Hcell).
  rewrite Hcell. simpl. split; [done|]. by rewrite app_assoc.
Qed.

(** A page with a product that throws: the products after it are not
    read. *)
Lemma scrapeProducts_cut endpoint socketUrl done bad rest p batch e :
  result (scrapeProducts env src endpoint socketUrl done p) = inr batch →
  result (scrapeProduct env src endpoint socketUrl bad p) = inl e →
  result (scrapeProducts env src endpoint socketUrl (done ++ bad :: rest) p)
  = inl e ∧
  events (scrapeProducts env src endpoint socketUrl (done ++ bad :: rest) p)
  = events (scrapeProducts env src endpoint socketUrl done p)
    ++ events (scrapeProduct env src endpoint socketUrl bad p).
Proof.
  intros Hdone Hbad. unfold scrapeProducts in *.
  rewrite foldM_app, (bind_returns _ _ _ _ Hdone). simpl. unfold_bind.
  set (q := page _).
  assert (result (scrapeProduct env src endpoint socketUrl bad q) = inl e)
    as Hbad'.
  { erewrite static_result; [exact Hbad|apply static_scrapeProduct]. }
  rewrite (bind_throws _ _ _ e) by (by rewrite (bind_throws _ _ _ e)).
  rewrite (bind_throws _ _ _ e) by done. simpl.
  split; [done|]. f_equal. apply static_events, static_scrapeProduct.
Qed.

(** A page on which a product throws ends the traversal: the pages and
    the variants after it are not visited. *)
Lemma failing_page_ends_traversal endpoint p0 beforeVariants entry afterVariants
    d0 lastItem numPages currentPage d e :
  cpuSockets src = beforeVariants ++ entry :: afterVariants →
  site env (fullUrl endpoint entry.2) = Some d0 →
  pagination d0 = Some (Some lastItem) →
  JS.parseInt lastItem = Some numPages →
  (1 ≤ currentPage)%nat →
  Z.of_nat currentPage ≤ numPages →
  site env (urlOfPage src endpoint entry.2 currentPage) = Some d →
  result (forM_ (scrapeVariant env src endpoint) beforeVariants p0) = inr tt →
  result (forM_ (scrapePage env src endpoint entry.2)
                (seq 1 (currentPage - 1)) d0) = inr tt →
  result (scrapeProducts env src endpoint entry.2 (products d) d) = inl e →
  scrape env src endpoint p0
  = mkOut (events (forM_ (scrapeVariant env src endpoint) beforeVariants p0)
           ++ EvGoto (fullUrl endpoint entry.2) :: EvNetworkIdle
           :: events (forM_ (scrapePage env src endpoint entry.2)
                            (seq 1 (currentPage - 1)) d0)
           ++ (if decide (1 < currentPage)%nat
               then [EvGoto (pageUrl src endpoint entry.2 currentPage);
                     EvNetworkIdle]
               else [])
           ++ events (scrapeProducts env src endpoint entry.2 (products d) d))
          d (inl e).
Proof.
  intros Htable Hsite Hpagination HnumPages Hfirst Hlast Hd HbeforeV HbeforeP Hrows.
  set (pP := page (forM_ (scrapePage env src endpoint entry.2)
                         (seq 1 (currentPage - 1)) d0)).
  assert ((if decide (1 < currentPage)%nat
           then site env (pageUrl src endpoint entry.2 currentPage)
           else Some pP) = Some d) as Hloaded.
  { unfold urlOfPage in Hd. case_decide as Hpage; [done|].
    assert (currentPage = 1%nat) as -> by lia.
    unfold pP. simpl. congruence. }
  pose proof (scrapePage_run env src endpoint entry.2 currentPage pP d Hloaded)
    as Hpage.
  rewrite Hrows, app_nil_r in Hpage. subst pP.
  assert (∀ p, scrapeVariant env src endpoint entry p
               = mkOut (EvGoto (fullUrl endpoint entry.2) :: EvNetworkIdle
                        :: events (forM_ (scrapePage env src endpoint entry.2)
                                         (seq 1 (currentPage - 1)) d0)
                        ++ (if decide (1 < currentPage)%nat
                            then [EvGoto (pageUrl src endpoint entry.2 currentPage);
                                  EvNetworkIdle]
                            else [])
                        ++ events (scrapeProducts env src endpoint entry.2
                                     (products d) d))
                       d (inl e)) as Hvariant.
  { intros p.
    rewrite (scrapeVariant_pages env src endpoint entry p d0 lastItem
               Hsite Hpagination).
    rewrite HnumPages. unfold pageNumbers.
    replace (Z.to_nat numPages)
      with ((currentPage - 1) + S (Z.to_nat numPages - currentPage))%nat by lia.
    rewrite seq_app, <- cons_seq.
    replace (1 + (currentPage - 1))%nat with currentPage by lia.
    rewrite forM__app, (bind_returns _ _ _ _ HbeforeP). simpl forM_.
    rewrite (bind_throws _ _ _ e) by (by rewrite Hpage).
    by rewrite Hpage. }
  unfold scrape. rewrite Htable, forM__app, (bind_returns _ _ _ _ HbeforeV).
  simpl forM_.
  rewrite (bind_throws _ _ _ e) by (by rewrite Hvariant).
  by rewrite Hvariant.
Qed.

(** A spec cell that throws, and before which nothing has thrown, ends the
    traversal with its error: the trace is what went before, and no
    batch comes from the page of the cell. *)
Lemma throwing_cell_ends_traversal endpoint p0 beforeVariants entry afterVariants
    d0 lastItem numPages currentPage d doneRows bad restRows batch
    beforeCells cell afterCells mid e :
  cpuSockets src = beforeVariants ++ entry :: afterVariants →
  site env (fullUrl endpoint entry.2) = Some d0 →
  pagination d0 = Some (Some lastItem) →
  JS.parseInt lastItem = Some numPages →
  (1 ≤ currentPage)%nat →
  Z.of_nat currentPage ≤ numPages →
  site env (urlOfPage src endpoint entry.2 currentPage) = Some d →
  products d = doneRows ++ bad :: restRows →
  specs bad = beforeCells ++ cell :: afterCells →
  result (forM_ (scrapeVariant env src endpoint) beforeVariants p0) = inr tt →
  result (forM_ (scrapePage env src endpoint entry.2)
                (seq 1 (currentPage - 1)) d0) = inr tt →
  result (scrapeProducts env src endpoint entry.2 doneRows d) = inr batch →
  result (scrapeProduct env src endpoint entry.2 (withSpecs bad beforeCells) d)
  = inr mid →
  (∀ serialized q, scrapeSpec env endpoint serialized cell q = mkOut [] q (inl e)) →
  result (scrape env src endpoint p0) = inl e ∧
  events (scrape env src endpoint p0)
  = events (forM_ (scrapeVariant env src endpoint) beforeVariants p0)
    ++ EvGoto (fullUrl endpoint entry.2) :: EvNetworkIdle
    :: events (forM_ (scrapePage env src endpoint entry.2)
                     (seq 1 (currentPage - 1)) d0)
    ++ (if decide (1 < currentPage)%nat
        then [EvGoto (pageUrl src endpoint entry.2 currentPage); EvNetworkIdle]
        else [])
    ++ events (scrapeProducts env src endpoint entry.2 doneRows d)
    ++ events (scrapeProduct env src endpoint entry.2
                 (withSpecs bad beforeCells) d) ∧
  yields (events (scrape env src endpoint p0))
  = yields (events (forM_ (scrapeVariant env src endpoint) beforeVariants p0))
    ++ yields (events (forM_ (scrapePage env src endpoint entry.2)
                             (seq 1 (currentPage - 1)) d0)).
Proof.
  intros Htable Hsite Hpagination HnumPages Hfirst Hlast Hd Hproducts Hspecs
    HbeforeV HbeforeP Hrows Hcells Hcell.
  destruct (scrapeProduct_cut endpoint entry.2 bad beforeCells cell afterCells
              d mid [] e Hspecs Hcells Hcell) as [Hbad Hbadevents].
  destruct (scrapeProducts_cut endpoint entry.2 doneRows bad restRows d batch e
              Hrows Hbad) as [Hpage Hpageevents].
  rewrite <- Hproducts in Hpage, Hpageevents.
  rewrite (failing_page_ends_traversal endpoint p0 beforeVariants entry
             afterVariants d0 lastItem numPages currentPage d e) by done.
  simpl. rewrite Hpageevents, Hbadevents, app_nil_r. split_and!; [done..|].
  rewrite yields_app. f_equal. simpl. rewrite !yields_app.
  rewrite (static_yields (scrapeProducts env src endpoint entry.2 doneRows))
    by apply static_scrapeProducts.
  rewrite (static_yields (scrapeProduct env src endpoint entry.2
                            (withSpecs bad beforeCells)))
    by apply static_scrapeProduct.
  case_decide; simpl; by rewrite !app_nil_r.
Qed.

(** A custom field for which the property read finds no function. *)
Lemma scrapeSpec_unregistered endpoint forEndpoint label field value :
  map env !! endpoint = Some forEndpoint →
  forEndpoint !! JS.trim label = Some (field, "custom") →
  JS.trim value ≠ "" →
  registeredSerializer env endpoint field = None →
  ∃ what, ∀ serialized p,
    scrapeSpec env endpoint serialized
               {| specLabel := Some label; innerText := value |} p
    = mkOut [] p (inl (TypeError what)).
Proof.
  intros Hmap Hlabel Hvalue Hnone.
  unfold scrapeSpec, callCustomSerializer. unfold_bind. simpl.
  unfold registeredSerializer in Hnone.
  destruct (customSerializers env !! endpoint) as [registered|].
  - eexists. intros serialized p.
    rewrite bind_ret_l, Hmap, Hlabel. simpl.
    rewrite decide_False by done. rewrite ?decide_True by done.
    by rewrite Hnone.
  - eexists. intros serialized p.
    rewrite bind_ret_l, Hmap, Hlabel. simpl.
    rewrite decide_False by done. by rewrite ?decide_True by done.
Qed.

(** C3, as the code has it: nothing is checked before the crawl.  The
    function of a custom field is looked up when a cell of that field
    with text in it is read.  If the property read finds none (no
    function under that key, and none inherited under that name), the
    call throws a [TypeError] there, in the middle of the crawl: the
    traversal of the category ends at that cell, what was yielded before
    is handed to the sink, the error is caught in the task, and the run
    is the list of the tasks as with any registry.  An empty cell of the
    same field is set to null without a lookup. *)
Theorem custom_serializer_looked_up_per_cell
    endpoint forEndpoint label field value
    beforeVariants entry afterVariants d0 lastItem numPages currentPage d
    doneRows bad restRows batch beforeCells afterCells mid :
  map env !! endpoint = Some forEndpoint →
  forEndpoint !! JS.trim label = Some (field, "custom") →
  JS.trim value ≠ "" →
  registeredSerializer env endpoint field = None →
  cpuSockets src = beforeVariants ++ entry :: afterVariants →
  site env (fullUrl endpoint entry.2) = Some d0 →
  pagination d0 = Some (Some lastItem) →
  JS.parseInt lastItem = Some numPages →
  (1 ≤ currentPage)%nat →
  Z.of_nat currentPage ≤ numPages →
  site env (urlOfPage src endpoint entry.2 currentPage) = Some d →
  products d = doneRows ++ bad :: restRows →
  specs bad
  = beforeCells ++ {| specLabel := Some label; innerText := value |} :: afterCells →
  result (forM_ (scrapeVariant env src endpoint) beforeVariants blankPage)
  = inr tt →
  result (forM_ (scrapePage env src endpoint entry.2)
                (seq 1 (currentPage - 1)) d0) = inr tt →
  result (scrapeProducts env src endpoint entry.2 doneRows d) = inr batch →
  result (scrapeProduct env src endpoint entry.2 (withSpecs bad beforeCells) d)
  = inr mid →
  ∃ what,
    (∀ serialized p,
       scrapeSpec env endpoint serialized
                  {| specLabel := Some label; innerText := value |} p
       = mkOut [] p (inl (TypeError what))) ∧
    result (scrape env src endpoint blankPage) = inl (TypeError what) ∧
    events (scrape env src endpoint blankPage)
    = events (forM_ (scrapeVariant env src endpoint) beforeVariants blankPage)
      ++ EvGoto (fullUrl endpoint entry.2) :: EvNetworkIdle
      :: events (forM_ (scrapePage env src endpoint entry.2)
                       (seq 1 (currentPage - 1)) d0)
      ++ (if decide (1 < currentPage)%nat
          then [EvGoto (pageUrl src endpoint entry.2 currentPage); EvNetworkIdle]
          else [])
      ++ events (scrapeProducts env src endpoint entry.2 doneRows d)
      ++ events (scrapeProduct env src endpoint entry.2
                   (withSpecs bad beforeCells) d) ∧
    aborted (task env src endpoint) = Some (TypeError what) ∧
    allParts (task env src endpoint)
    = concat (yields (events (forM_ (scrapeVariant env src endpoint)
                                    beforeVariants blankPage)))
      ++ concat (yields (events (forM_ (scrapePage env src endpoint entry.2)
                                       (seq 1 (currentPage - 1)) d0))) ∧
    (∀ blank serialized p,
       JS.trim blank = "" →
       scrapeSpec env endpoint serialized
                  {| specLabel := Some label; innerText := blank |} p
       = mkOut [] p (inr (<[field := VNull]> serialized))) ∧
    (∀ endpoints,
       result (seed env blankPage) = inr tt →
       scrapeInParallel env src endpoints = task env src <$> endpoints).
Proof.
  intros Hmap Hlabel Hvalue Hnone Htable Hsite Hpagination HnumPages Hfirst
    Hlast Hd Hproducts Hspecs HbeforeV HbeforeP Hrows Hcells.
  destruct (scrapeSpec_unregistered endpoint forEndpoint label field value
              Hmap Hlabel Hvalue Hnone) as [what Hcell].
  destruct (throwing_cell_ends_traversal endpoint blankPage beforeVariants entry
              afterVariants d0 lastItem numPages currentPage d doneRows bad
              restRows batch beforeCells _ afterCells mid (TypeError what)
              Htable Hsite Hpagination HnumPages Hfirst Hlast Hd Hproducts
              Hspecs HbeforeV HbeforeP Hrows Hcells Hcell)
    as (Hresult & Hevents & Hyields).
  exists what. split_and!.
  - done.
  - done.
  - done.
  - by apply task_aborted.
  - by rewrite task_allParts, Hyields, concat_app.
  - intros blank serialized p Hblank. by eapply scrapeSpec_empty.
  - intros endpoints. apply seeded_run.
Qed.

(** *** The name of the variant *)

Lemma findSocketName_own (entry : string * string) :
  NoDup ((cpuSockets src).*2) →
  entry ∈ cpuSockets src →
  findSocketName src entry.2 = Some entry.1.
Proof.
  unfold findSocketName.
  induction (cpuSockets src) as [|first others IH]; intros Hnodup Hentry.
  - by apply elem_of_nil in Hentry.
  - rewrite fmap_cons in Hnodup. apply NoDup_cons in Hnodup as [Hfresh Hnodup].
    simpl. case_bool_decide as Hsame.
    + apply elem_of_cons in Hentry as [->|Hentry]; [done|].
      destruct Hfresh. rewrite Hsame. by apply list_elem_of_fmap_2.
    + apply elem_of_cons in Hentry as [->|Hentry]; [done|]. by apply IH.
Qed.

Lemma scrapeProduct_name_price endpoint (entry : string * string) productEl q record :
  keepsNameAndPrice env endpoint →
  NoDup ((cpuSockets src).*2) →
  entry ∈ cpuSockets src →
  result (scrapeProduct env src endpoint entry.2 productEl q) = inr record →
  ∃ title,
    nameText productEl = Some title ∧
    record !! "name" = Some (VString (entry.1 +:+ " " +:+ title)) ∧
    (record !! "price" = Some VNull ∨ ∃ n, record !! "price" = Some (VNumber n)).
Proof.
  intros Hkeep Hnodup Hentry H.
  apply scrapeProduct_fields in H
    as (title & raw & price & Htitle & _ & Hprice & Hname & Hfield); [|done].
  rewrite (findSocketName_own entry Hnodup Hentry) in Hname.
  exists title. split_and!; [done..|]. rewrite Hfield.
  unfold priceFrom in Hprice. destruct raw as [text|].
  - case_decide; [left; by subst|]. destruct Hprice as (n & _ & ->). eauto.
  - left. by subst.
Qed.

(** C9: every record that is built, and so every record handed to the
    sink, has a [name] made of the variant's key in the table, a space
    and the title of the product, and a [price] that is a number or
    null.  The mapping table is taken not to name a field [name] or
    [price], and the table of variants has no URL fragment twice (true
    of both copies of the file). *)
Theorem every_record_has_name_and_price endpoint :
  keepsNameAndPrice env endpoint →
  NoDup ((cpuSockets src).*2) →
  (∀ (entry : string * string) productEl q record,
     entry ∈ cpuSockets src →
     result (scrapeProduct env src endpoint entry.2 productEl q) = inr record →
     ∃ title,
       nameText productEl = Some title ∧
       record !! "name" = Some (VString (entry.1 +:+ " " +:+ title)) ∧
       (record !! "price" = Some VNull ∨
        ∃ n, record !! "price" = Some (VNumber n))) ∧
  (∀ record,
     record ∈ allParts (task env src endpoint) →
     ∃ (entry : string * string) title,
       entry ∈ cpuSockets src ∧
       record !! "name" = Some (VString (entry.1 +:+ " " +:+ title)) ∧
       (record !! "price" = Some VNull ∨
        ∃ n, record !! "price" = Some (VNumber n))).
Proof.
  intros Hkeep Hnodup. split.
  - intros entry productEl q record Hentry H.
    by eapply scrapeProduct_name_price.
  - intros record. rewrite task_allParts.
    intros Hin%list_elem_of_In. apply in_concat in Hin
      as (batch & Hbatch%list_elem_of_In & Hrecord%list_elem_of_In).
    destruct (scrape_follows env src endpoint blankPage) as (_ & _ & _ & HP).
    rewrite Forall_forall in HP.
    destruct (HP batch Hbatch) as (entry & currentPage & d & Hentry & _ & Hrecords).
    apply recordsOf_products in Hrecords.
    apply list_elem_of_lookup in Hrecord as [i Hi].
    destruct (Forall2_lookup_r _ _ _ _ _ Hrecords Hi)
      as (productEl & _ & q & Hbuilt).
    destruct (scrapeProduct_name_price _ _ _ _ _ Hkeep Hnodup Hentry Hbuilt)
      as (title & _ & Hname & Hprice).
    by exists entry, title.
Qed.

(** C6: a label is trimmed and then looked up as it is, so a label that
    differs from every key of the table, be it only in case, has no
    entry and the cell throws: the error of [No mapping found], except
    for the twelve names an object inherits, where the destructuring
    throws a [TypeError] instead.  Either way the throw ends the
    traversal of the category at that cell: the cells after it, the
    products after it on the page, the pages and the variants after it
    are not visited and no batch comes from its page.  The error is
    caught at the category boundary, the batches yielded before are
    handed to the sink, and the run is the list of the tasks, one per
    endpoint. *)
Theorem unmapped_label_aborts_category
    endpoint forEndpoint label value
    beforeVariants entry afterVariants d0 lastItem numPages currentPage d
    doneRows bad restRows batch beforeCells afterCells mid :
  map env !! endpoint = Some forEndpoint →
  forEndpoint !! JS.trim label = None →
  cpuSockets src = beforeVariants ++ entry :: afterVariants →
  site env (fullUrl endpoint entry.2) = Some d0 →
  pagination d0 = Some (Some lastItem) →
  JS.parseInt lastItem = Some numPages →
  (1 ≤ currentPage)%nat →
  Z.of_nat currentPage ≤ numPages →
  site env (urlOfPage src endpoint entry.2 currentPage) = Some d →
  products d = doneRows ++ bad :: restRows →
  specs bad
  = beforeCells ++ {| specLabel := Some label; innerText := value |} :: afterCells →
  result (forM_ (scrapeVariant env src endpoint) beforeVariants blankPage)
  = inr tt →
  result (forM_ (scrapePage env src endpoint entry.2)
                (seq 1 (currentPage - 1)) d0) = inr tt →
  result (scrapeProducts env src endpoint entry.2 doneRows d) = inr batch →
  result (scrapeProduct env src endpoint entry.2 (withSpecs bad beforeCells) d)
  = inr mid →
  (JS.trim label ∉ JS.objectPrototypeNames →
   absentLabelError (JS.trim label) = MappingError (JS.trim label)) ∧
  (JS.trim label ∈ JS.objectPrototypeNames →
   absentLabelError (JS.trim label) = TypeError "mapped is not iterable") ∧
  (∀ serialized p,
     scrapeSpec env endpoint serialized
                {| specLabel := Some label; innerText := value |} p
     = mkOut [] p (inl (absentLabelError (JS.trim label)))) ∧
  result (scrape env src endpoint blankPage)
  = inl (absentLabelError (JS.trim label)) ∧
  events (scrape env src endpoint blankPage)
  = events (forM_ (scrapeVariant env src endpoint) beforeVariants blankPage)
    ++ EvGoto (fullUrl endpoint entry.2) :: EvNetworkIdle
    :: events (forM_ (scrapePage env src endpoint entry.2)
                     (seq 1 (currentPage - 1)) d0)
    ++ (if decide (1 < currentPage)%nat
        then [EvGoto (pageUrl src endpoint entry.2 currentPage); EvNetworkIdle]
        else [])
    ++ events (scrapeProducts env src endpoint entry.2 doneRows d)
    ++ events (scrapeProduct env src endpoint entry.2
                 (withSpecs bad beforeCells) d) ∧
  aborted (task env src endpoint) = Some (absentLabelError (JS.trim label)) ∧
  allParts (task env src endpoint)
  = concat (yields (events (forM_ (scrapeVariant env src endpoint)
                                  beforeVariants blankPage)))
    ++ concat (yields (events (forM_ (scrapePage env src endpoint entry.2)
                                     (seq 1 (currentPage - 1)) d0))) ∧
  (∀ endpoints,
     result (seed env blankPage) = inr tt →
     scrapeInParallel env src endpoints = task env src <$> endpoints).
Proof.
  intros Hmap Hlabel Htable Hsite Hpagination HnumPages Hfirst Hlast Hd
    Hproducts Hspecs HbeforeV HbeforeP Hrows Hcells.
  assert (∀ serialized p,
            scrapeSpec env endpoint serialized
                       {| specLabel := Some label; innerText := value |} p
            = mkOut [] p (inl (absentLabelError (JS.trim label)))) as Hcell.
  { intros. by eapply scrapeSpec_unmapped. }
  destruct (throwing_cell_ends_traversal endpoint blankPage beforeVariants entry
              afterVariants d0 lastItem numPages currentPage d doneRows bad
              restRows batch beforeCells _ afterCells mid _
              Htable Hsite Hpagination HnumPages Hfirst Hlast Hd Hproducts
              Hspecs HbeforeV HbeforeP Hrows Hcells Hcell)
    as (Hresult & Hevents & Hyields).
  split_and!.
  - intros Hown. unfold absentLabelError, JS.inherited.
    by rewrite bool_decide_eq_false_2.
  - intros Hinherited. unfold absentLabelError, JS.inherited.
    by rewrite bool_decide_eq_true_2.
  - done.
  - done.
  - done.
  - by apply task_aborted.
  - by rewrite task_allParts, Hyields, concat_app.
  - intros endpoints. apply seeded_run.
Qed.

End Category.

(** ** The tables of the two copies *)

Lemma Motherboard_fragments_distinct : NoDup (Motherboard.cpuSockets.*2).
Proof. apply (bool_decide_unpack _). vm_compute. exact I. Qed.

Lemma Cpu_fragments_distinct : NoDup (Cpu.cpuSockets.*2).
Proof. apply (bool_decide_unpack _). vm_compute. exact I. Qed.

(** ** The properties on the fixture *)

Section OnFixture.

Abbreviation run := (scrape Fixture.env Motherboard.source).

Example numeric_serializer_example :
  Fixture.serializeNumber "$129.99" = inr (12999 # 100)%Q.
Proof. reflexivity. Qed.

Lemma price_null_iff_blank_witness :
  ∃ raw,
    priceText (Fixture.memoryItem "A") = Some raw ∧
    (Fixture.memoryRecord "DDR2 A" !! "price" = Some VNull ↔ isBlank raw) ∧
    (∀ text, raw = Some text → JS.trim text ≠ "" →
       ∃ n, serializeNumber Fixture.env text = inr n ∧
            Fixture.memoryRecord "DDR2 A" !! "price" = Some (VNumber n)).
Proof.
  apply (price_null_iff_blank Fixture.env Motherboard.source "memory" "#mt=ddr2"
                              (Fixture.memoryItem "A") blankPage).
  - apply (bool_decide_unpack _). vm_compute. exact I.
  - vm_compute. reflexivity.
Defined.

Example blank_price_example :
  result (scrapeProduct Fixture.env Motherboard.source "mouse" "#mt=ddr2"
            (Fixture.product "M1" "" [Fixture.spec "  Color  " "Black"]) blankPage)
  = inr Fixture.mouseRecord.
Proof. vm_compute. reflexivity. Qed.


(** The label [color] of the third product on the second page of
    [mouse], where the table has [Color]. *)
Lemma unmapped_label_aborts_category_witness :
  Fixture.mouseTable !! "Color" = Some ("color", "string") ∧
  result (run "mouse" blankPage) = inl (MappingError "color") ∧
  aborted (task Fixture.env Motherboard.source "mouse")
  = Some (MappingError "color") ∧
  allParts (task Fixture.env Motherboard.source "mouse") = [Fixture.mouseRecord].
Proof.
  destruct (unmapped_label_aborts_category
              Fixture.env Motherboard.source "mouse" Fixture.mouseTable
              "color" "Red"
              [] ("DDR2", "#mt=ddr2")
              [("DDR3", "#mt=ddr3"); ("DDR4", "#mt=ddr4"); ("DDR5", "#mt=ddr5")]
              (Fixture.listing "2"
                 [Fixture.product "M1" "" [Fixture.spec "  Color  " "Black"]])
              "2" 2 2%nat
              (Fixture.listing "2"
                 [Fixture.product "M2" "$5" [Fixture.spec "Color" " "];
                  Fixture.product "M3" "$6" [Fixture.spec "color" "Red"];
                  Fixture.product "M4" "$7" []])
              [Fixture.product "M2" "$5" [Fixture.spec "Color" " "]]
              (Fixture.product "M3" "$6" [Fixture.spec "color" "Red"])
              [Fixture.product "M4" "$7" []]
              [<["color" := VNull]>
                 (<["price" := VNumber (5 # 1)%Q]>
                    (<["name" := VString "DDR2 M2"]> ∅))]
              [] []
              (<["price" := VNumber (6 # 1)%Q]>
                 (<["name" := VString "DDR2 M3"]> ∅)))
    as (_ & _ & _ & Hresult & _ & Haborted & HallParts & _).
  - reflexivity.
  - reflexivity.
  - reflexivity.
  - reflexivity.
  - reflexivity.
  - reflexivity.
  - lia.
  - lia.
  - reflexivity.
  - reflexivity.
  - reflexivity.
  - reflexivity.
  - vm_compute. reflexivity.
  - vm_compute. reflexivity.
  - vm_compute. reflexivity.
  - split_and!; [reflexivity|exact Hresult|exact Haborted|].
    rewrite HallParts. vm_compute. reflexivity.
Defined.

(** The label [color] on the second page of [mouse]: the traversal stops
    at the third serializer call, the fourth product is not read, the
    report holds the one record of the first page, and [memory] is whole. *)
Example unmapped_label_example :
  serializerCalls (events (run "mouse" blankPage))
  = [EvGenericSerialize "Black" "string"; EvSerializeNumber "$5";
     EvSerializeNumber "$6"] ∧
  scrapeInParallel Fixture.env Motherboard.source ["mouse"; "memory"]
  = [ {| category := "mouse"; aborted := Some (MappingError "color");
         allParts := [Fixture.mouseRecord] |};
      {| category := "memory"; aborted := None;
         allParts := Fixture.memoryRecord <$>
                       ["DDR2 A"; "DDR2 B"; "DDR2 C"; "DDR3 D"; "DDR3 E"; "DDR3 F"] |} ].
Proof. split; vm_compute; reflexivity. Qed.

(** Two variants of two pages each come out as variant 1 page 1, variant 1
    page 2, variant 2 page 1, variant 2 page 2; the third variant has one
    page without products, the fourth has no page. *)
Example batches_in_declared_order_example :
  result (run "memory" blankPage) = inr tt ∧
  yields (events (run "memory" blankPage))
  = [ Fixture.memoryRecord <$> ["DDR2 A"; "DDR2 B"];
      Fixture.memoryRecord <$> ["DDR2 C"];
      Fixture.memoryRecord <$> ["DDR3 D"];
      Fixture.memoryRecord <$> ["DDR3 E"; "DDR3 F"];
      [] ].
Proof. split; vm_compute; reflexivity. Qed.

(** The category [os] is walked through the four memory generations. *)
Example variant_table_is_global_example :
  gotos (events (run "os" blankPage))
  = [ "https://pcpartpicker.com/products/os/#mt=ddr2";
      "https://pcpartpicker.com/products/os/#mt=ddr3";
      "https://pcpartpicker.com/products/os/#mt=ddr4";
      "https://pcpartpicker.com/products/os/#mt=ddr5" ] ∧
  allParts (task Fixture.env Motherboard.source "os")
  = Fixture.osRecord <$> ["DDR2 Home"; "DDR3 Home"; "DDR4 Home"; "DDR5 Home"].
Proof. split; vm_compute; reflexivity. Qed.

Lemma every_record_has_name_and_price_witness :
  ∃ (entry : string * string) title,
    entry ∈ Motherboard.cpuSockets ∧
    Fixture.memoryRecord "DDR2 A" !! "name"
      = Some (VString (entry.1 +:+ " " +:+ title)) ∧
    (Fixture.memoryRecord "DDR2 A" !! "price" = Some VNull ∨
     ∃ n, Fixture.memoryRecord "DDR2 A" !! "price" = Some (VNumber n)).
Proof.
  refine (proj2 (every_record_has_name_and_price
                   Fixture.env Motherboard.source "memory" _ _)
                (Fixture.memoryRecord "DDR2 A") _).
  - apply (bool_decide_unpack _). vm_compute. exact I.
  - apply (bool_decide_unpack _). vm_compute. exact I.
  - apply list_elem_of_lookup. exists 0%nat. vm_compute. reflexivity.
Defined.

(** The third keyboard has a price that is no number: the two records
    built before it on the page are not in the report, which is empty. *)
Lemma third_item_fails_counterexample :
  result (scrapeProduct Fixture.env Motherboard.source "keyboard" "#mt=ddr2"
            (Fixture.keyboardItem "K1" "$10") blankPage)
    = inr (Fixture.keyboardRecord "DDR2 K1" (10 # 1)) ∧
  result (scrapeProduct Fixture.env Motherboard.source "keyboard" "#mt=ddr2"
            (Fixture.keyboardItem "K2" "$20.5") blankPage)
    = inr (Fixture.keyboardRecord "DDR2 K2" (41 # 2)) ∧
  result (scrapeProduct Fixture.env Motherboard.source "keyboard" "#mt=ddr2"
            (Fixture.keyboardItem "K3" "call us") blankPage)
    = inl (SerializerError "MalformedValue") ∧
  scrapeInParallel Fixture.env Motherboard.source ["os"; "keyboard"]
  = [ {| category := "os"; aborted := None;
         allParts := Fixture.osRecord <$>
                       ["DDR2 Home"; "DDR3 Home"; "DDR4 Home"; "DDR5 Home"] |};
      {| category := "keyboard";
         aborted := Some (SerializerError "MalformedValue");
         allParts := [] |} ] ∧
  allParts (task Fixture.env Motherboard.source "keyboard")
  ≠ [ Fixture.keyboardRecord "DDR2 K1" (10 # 1);
      Fixture.keyboardRecord "DDR2 K2" (41 # 2) ].
Proof. split_and!; try (vm_compute; reflexivity). vm_compute. discriminate. Qed.

Lemma partial_result_is_whole_pages_witness :
  aborted (task Fixture.env Motherboard.source "mouse") = Some (MappingError "color") ∧
  allParts (task Fixture.env Motherboard.source "mouse")
  = concat (yields (events (run "mouse" blankPage))).
Proof.
  destruct (partial_result_is_whole_pages
              Fixture.env Motherboard.source ["memory"; "mouse"] "mouse"
              (MappingError "color"))
    as (_ & _ & Haborted & HallParts & _).
  - vm_compute. reflexivity.
  - apply (bool_decide_unpack _). vm_compute. exact I.
  - vm_compute. reflexivity.
  - split; [exact Haborted|exact HallParts].
Defined.

(** The site does not answer: no endpoint is queued and nothing is
    written for the two endpoints that were asked for. *)
Lemma unreachable_site_counterexample :
  result (seed Fixture.offline blankPage)
    = inl (NavigationError "https://pcpartpicker.com") ∧
  scrapeInParallel Fixture.offline Motherboard.source ["memory"; "keyboard"] = [].
Proof. split; vm_compute; reflexivity. Qed.

Lemma one_report_per_queued_endpoint_witness :
  category <$> scrapeInParallel Fixture.env Motherboard.source
                 ["memory"; "keyboard"; "mouse"]
  = ["memory"; "keyboard"; "mouse"].
Proof.
  apply (one_report_per_queued_endpoint Fixture.env Motherboard.source
           ["memory"; "keyboard"; "mouse"]).
  vm_compute. reflexivity.
Defined.

(** [Modules] of [case] is marked custom and nothing is registered for
    it: the run starts all the same, the first product passes because its
    cell is empty, and the call for the second product throws in the
    middle of the crawl; the other category is written as usual. *)
Lemma unregistered_custom_counterexample :
  Fixture.map !! "case" = Some Fixture.caseTable ∧
  Fixture.caseTable !! "Modules" = Some ("modules", "custom") ∧
  registeredSerializer Fixture.env "case" "modules" = None ∧
  events (run "case" blankPage)
  = [ EvGoto "https://pcpartpicker.com/products/case/#mt=ddr2"; EvNetworkIdle;
      EvSerializeNumber "$70"; EvSerializeNumber "$80" ] ∧
  result (run "case" blankPage)
  = inl (TypeError "Cannot read properties of undefined") ∧
  (λ report, (category report, aborted report))
    <$> scrapeInParallel Fixture.env Motherboard.source ["case"; "os"]
  = [ ("case", Some (TypeError "Cannot read properties of undefined"));
      ("os", None) ].
Proof. split_and!; vm_compute; reflexivity. Qed.

Lemma custom_serializer_looked_up_per_cell_witness :
  ∃ what,
    result (run "case" blankPage) = inl (TypeError what) ∧
    aborted (task Fixture.env Motherboard.source "case") = Some (TypeError what) ∧
    allParts (task Fixture.env Motherboard.source "case") = [].
Proof.
  destruct (custom_serializer_looked_up_per_cell
              Fixture.env Motherboard.source "case" Fixture.caseTable
              "Modules" "modules" "2 x 8GB"
              [] ("DDR2", "#mt=ddr2")
              [("DDR3", "#mt=ddr3"); ("DDR4", "#mt=ddr4"); ("DDR5", "#mt=ddr5")]
              (Fixture.listing "1"
                 [Fixture.product "C1" "$70" [Fixture.spec "Modules" ""];
                  Fixture.product "C2" "$80" [Fixture.spec "Modules" "2 x 8GB"]])
              "1" 1 1%nat
              (Fixture.listing "1"
                 [Fixture.product "C1" "$70" [Fixture.spec "Modules" ""];
                  Fixture.product "C2" "$80" [Fixture.spec "Modules" "2 x 8GB"]])
              [Fixture.product "C1" "$70" [Fixture.spec "Modules" ""]]
              (Fixture.product "C2" "$80" [Fixture.spec "Modules" "2 x 8GB"])
              []
              [<["modules" := VNull]>
                 (<["price" := VNumber (70 # 1)%Q]>
                    (<["name" := VString "DDR2 C1"]> ∅))]
              [] []
              (<["price" := VNumber (80 # 1)%Q]>
                 (<["name" := VString "DDR2 C2"]> ∅)))
    as (what & _ & Hresult & _ & Haborted & HallParts & _).
  - reflexivity.
  - reflexivity.
  - vm_compute. discriminate.
  - reflexivity.
  - reflexivity.
  - reflexivity.
  - reflexivity.
  - reflexivity.
  - lia.
  - lia.
  - reflexivity.
  - reflexivity.
  - reflexivity.
  - reflexivity.
  - reflexivity.
  - vm_compute. reflexivity.
  - vm_compute. reflexivity.
  - exists what. split_and!; [exact Hresult|exact Haborted|].
    rewrite HallParts. reflexivity.
Defined.

(** Generation by generation and page by page on the fixture: two
    variants of two pages, one of one page, one of none. *)
Lemma batches_in_declared_order_witness :
  yields (events (run "memory" blankPage))
  = [ Fixture.memoryRecord <$> ["DDR2 A"; "DDR2 B"];
      Fixture.memoryRecord <$> ["DDR2 C"];
      Fixture.memoryRecord <$> ["DDR3 D"];
      Fixture.memoryRecord <$> ["DDR3 E"; "DDR3 F"];
      [] ] ∧
  ∃ d,
    site Fixture.env "https://pcpartpicker.com/products/memory/#mt=ddr3&page=2"
    = Some d ∧
    Forall2 (λ productEl record,
               ∃ q, result (scrapeProduct Fixture.env Motherboard.source "memory"
                              "#mt=ddr3" productEl q) = inr record)
            (products d)
            (batchOf Fixture.env Motherboard.source "memory" "#mt=ddr3" 2).
Proof.
  destruct (batches_in_declared_order Fixture.env Motherboard.source "memory")
    as (_ & _ & Hdone).
  destruct Hdone as (Hyields & _ & Hpages); [vm_compute; reflexivity|].
  split.
  - rewrite Hyields. vm_compute. reflexivity.
  - apply (Hpages ("DDR3", "#mt=ddr3") 2%nat).
    + apply (bool_decide_unpack _). vm_compute. exact I.
    + lia.
    + vm_compute. discriminate.
Defined.

(** A cell labelled [constructor]: the table of [headphones] has no such
    key, the lookup finds the inherited property, and what aborts the
    category is the [TypeError] of the destructuring, not the error of
    [No mapping found]. *)
Example inherited_label_example :
  Inherit.table !! "constructor" = None ∧
  (∀ serialized p,
     scrapeSpec Inherit.env "headphones" serialized
                (Fixture.spec "constructor" "x") p
     = mkOut [] p (inl (TypeError "mapped is not iterable"))) ∧
  scrapeInParallel Inherit.env Motherboard.source ["headphones"]
  = [ {| category := "headphones";
         aborted := Some (TypeError "mapped is not iterable");
         allParts := [] |} ].
Proof.
  split_and!; [reflexivity| |vm_compute; reflexivity].
  intros serialized p.
  apply (scrapeSpec_unmapped Inherit.env "headphones" Inherit.table
           "constructor" "x"); reflexivity.
Qed.

(** A custom field named [toString] without a function of its own: the
    call finds the inherited method and the record holds what that
    returns. *)
Example inherited_method_example :
  Inherit.customSerializers !! "headphones" = Some ∅ ∧
  result (scrapeProduct Inherit.env Motherboard.source "headphones" "#mt=ddr2"
            Inherit.first blankPage)
  = inr Inherit.firstRecord ∧
  events (scrapeProduct Inherit.env Motherboard.source "headphones" "#mt=ddr2"
            Inherit.first blankPage)
  = [EvSerializeNumber "$5"; EvCustomSerialize "headphones" "toString" "Open"] ∧
  (∀ serialized p,
     ∃ what,
       scrapeSpec Inherit.env "headphones" serialized
                  (Fixture.spec "Shape" "Round") p
       = mkOut [] p (inl (TypeError what))).
Proof.
  split_and!; [reflexivity|vm_compute; reflexivity..|].
  intros serialized p.
  destruct (scrapeSpec_unregistered Inherit.env "headphones" Inherit.table
              "Shape" "shape" "Round") as [what Hcell];
    [reflexivity|reflexivity|vm_compute; discriminate|reflexivity|].
  exists what. apply Hcell.
Qed.

End OnFixture.

(** * More of the two files *)

(** ** What a spec cell does to the record *)

Section CellsOfAProduct.

Context {number : Type}.
Variable env : Env number.
Variable src : Source.

Abbreviation Fields := (gmap string (Value number)).

Local Set Warnings "-clear-no-such-hyp".

(** A cell that is read without a throw: the field it writes, the value
    it writes there and the call it makes. *)
Lemma scrapeSpec_returns endpoint (serialized serialized' : Fields) spec p :
  result (scrapeSpec env endpoint serialized spec p) = inr serialized' →
  ∃ field type v,
    mappedTo env endpoint spec = Some (field, type) ∧
    serialized' = <[field := v]> serialized ∧
    (if decide (JS.trim (innerText spec) = "") then v = VNull
     else ∃ f, serializerFor env endpoint field type = Some f ∧
               f (innerText spec) = inr v) ∧
    events (scrapeSpec env endpoint serialized spec p)
    = option_list (cellCall env endpoint spec).
Proof.
  unfold scrapeSpec, mappedTo, cellCall, mappedTo, serializerFor,
    registeredSerializer, callCustomSerializer, callGenericSerialize.
  unfold_bind. destruct (specLabel spec) as [label|]; [|done].
  unfold eval, fmap, option_fmap, option_map. rewrite !bind_ret_l. simpl.
  destruct (map env !! endpoint) as [forEndpoint|]; [|done]. simpl.
  destruct (forEndpoint !! JS.trim label) as [[field type]|];
    [|by case_match]. simpl.
  intros H. exists field, type.
  destruct (decide (JS.trim (innerText spec) = "")) as [Hblank|Hblank].
  - injection H as <-. by exists VNull.
  - destruct (decide (type = "custom")) as [Hcustom|Hcustom].
    + destruct (customSerializers env !! endpoint) as [registered|]; [|done].
      destruct (getSerializer env endpoint registered field) as [f|] eqn:Hf;
      [|done].
      unfold bind, emit, lift, ret in *. simpl in *.
      destruct (f (innerText spec)) as [e|v] eqn:Hv; [done|].
      simpl in H. injection H as <-. exists v. split_and!; try done. by exists f.
    + unfold bind, emit, lift, ret in *. simpl in *.
      destruct (genericSerialize env (innerText spec) type) as [e|v] eqn:Hv; [done|].
      simpl in H. injection H as <-. exists v. split_and!; try done.
      by eexists.
Qed.



Lemma scrapeSpecs_events endpoint specs :
  ∀ (serialized serialized' : Fields) p,
    result (foldM (scrapeSpec env endpoint) specs serialized p) = inr serialized' →
    events (foldM (scrapeSpec env endpoint) specs serialized p)
    = omap (cellCall env endpoint) specs.
Proof.
  induction specs as [|spec specs IH]; intros serialized serialized' p H; [done|].
  simpl in *. rewrite events_bind.
  apply bind_result_inr in H as (mid & Hspec & Hrest).
  rewrite Hspec, (IH _ _ _ Hrest).
  apply scrapeSpec_returns in Hspec as (field & type & v & _ & _ & _ & ->).
  by destruct (cellCall env endpoint spec).
Qed.



(** X3: the serializers a product calls, in order: [serializeNumber] on
    the price text if it is not blank, then one call per spec cell that
    is not blank, custom or generic by its kind, each on the text as it
    was read. *)
Theorem serializer_calls_in_order endpoint socketUrl productEl p (record : Fields) :
  result (scrapeProduct env src endpoint socketUrl productEl p) = inr record →
  events (scrapeProduct env src endpoint socketUrl productEl p)
  = callsOf env endpoint productEl.
Proof.
  unfold scrapeProduct, callsOf, priceCall, callSerializeNumber. unfold_bind.
  destruct (nameText productEl) as [title|]; [|done].
  destruct (priceText productEl) as [raw|]; [|done].
  unfold eval. rewrite !bind_ret_l. intros H. rewrite events_bind.
  apply bind_result_inr in H as (price & Hprice & Hspecs).
  rewrite Hprice, (scrapeSpecs_events _ _ _ _ _ Hspecs). f_equal.
  destruct raw as [text|]; [|done]. case_decide; [done|].
  unfold bind, emit, lift, ret in *. simpl in *.
  by destruct (serializeNumber env text).
Qed.

(** X4: building a record neither navigates nor yields nor changes the
    page, and gives the same result whatever page is loaded. *)
Theorem extraction_leaves_page_alone endpoint socketUrl productEl p q :
  page (scrapeProduct env src endpoint socketUrl productEl p) = p ∧
  gotos (events (scrapeProduct env src endpoint socketUrl productEl p)) = [] ∧
  yields (events (scrapeProduct env src endpoint socketUrl productEl p)) = [] ∧
  scrapeProduct env src endpoint socketUrl productEl q
  = mkOut (events (scrapeProduct env src endpoint socketUrl productEl p)) q
          (result (scrapeProduct env src endpoint socketUrl productEl p)).
Proof.
  destruct (static_scrapeProduct env src endpoint socketUrl productEl)
    as (evs & r & Hevs & H).
  rewrite !H. simpl. by destruct (calls_yield_nothing evs Hevs) as [-> ->].
Qed.

End CellsOfAProduct.

(** ** Pages and variants that go wrong *)

Section Edges.

Context {number : Type}.
Variable env : Env number.
Variable src : Source.
Variable endpoint : string.

(** X5: a page without product rows yields an empty batch; it is not an
    error and the traversal goes on. *)
Theorem empty_page_yields_empty_batch socketUrl currentPage p d :
  (if decide (1 < currentPage)%nat
   then site env (pageUrl src endpoint socketUrl currentPage)
   else Some p) = Some d →
  products d = [] →
  scrapePage env src endpoint socketUrl currentPage p
  = mkOut ((if decide (1 < currentPage)%nat
            then [EvGoto (pageUrl src endpoint socketUrl currentPage); EvNetworkIdle]
            else []) ++ [EvYield []])
          d (inr tt).
Proof.
  intros Hd Hproducts. unfold scrapePage, scrapeProducts. unfold_bind.
  unfold bind, goto, waitForNetworkIdle, productElements, yield, emit, ret.
  case_decide.
  - rewrite Hd. simpl. by rewrite Hproducts.
  - injection Hd as ->. simpl. by rewrite Hproducts.
Qed.

(** X6: when the last item of the pagination control does not read as a
    number of at least 1, the variant is passed over without an error:
    nothing on its page is read and nothing is yielded. *)
Theorem unreadable_page_count_skips_variant (entry : string * string) p d lastItem :
  site env (fullUrl endpoint entry.2) = Some d →
  pagination d = Some (Some lastItem) →
  (JS.parseInt lastItem = None ∨ ∃ n, JS.parseInt lastItem = Some n ∧ n < 1) →
  scrapeVariant env src endpoint entry p
  = mkOut [EvGoto (fullUrl endpoint entry.2); EvNetworkIdle] d (inr tt).
Proof.
  intros Hsite Hpagination Hcount.
  rewrite (scrapeVariant_pages _ _ _ _ _ _ _ Hsite Hpagination).
  assert (pageNumbers (JS.parseInt lastItem) = []) as ->; [|done].
  destruct Hcount as [->|(n & -> & Hn)]; [done|].
  unfold pageNumbers. by replace (Z.to_nat n) with 0%nat by lia.
Qed.

(** The error of a variant whose listing cannot be opened or whose
    pagination control cannot be read. *)
Lemma scrapeVariant_unreadable (entry : string * string) p :
  match site env (fullUrl endpoint entry.2) with
  | Some d => ∀ lastItem, pagination d ≠ Some (Some lastItem)
  | None => True
  end →
  result (scrapeVariant env src endpoint entry p)
  = inl (match site env (fullUrl endpoint entry.2) with
         | None => NavigationError (fullUrl endpoint entry.2)
         | Some d =>
             match pagination d with
             | None => TimeoutError ".pagination"
             | Some _ => NoElementError "li:last-child"
             end
         end) ∧
  gotos (events (scrapeVariant env src endpoint entry p)) = [fullUrl endpoint entry.2] ∧
  yields (events (scrapeVariant env src endpoint entry p)) = [].
Proof.
  intros H. unfold scrapeVariant. unfold_bind.
  unfold bind, goto, waitForNetworkIdle, emit, waitForPagination, eval, ret, throw.
  destruct (site env (fullUrl endpoint entry.2)) as [d|]; simpl; [|done].
  destruct (pagination d) as [[lastItem|]|]; simpl; [|done..].
  by destruct (H lastItem).
Qed.

(** X7: a variant whose listing cannot be opened, or shows no pagination
    control, or one without a last item, ends the traversal with
    [NavigationError], [TimeoutError] or [NoElementError]: one navigation
    was tried for it, nothing is yielded for it, and the variants after
    it are not visited. *)
Theorem unreadable_pagination_ends_traversal before (entry : string * string) rest p :
  result (forM_ (scrapeVariant env src endpoint) before p) = inr tt →
  match site env (fullUrl endpoint entry.2) with
  | Some d => ∀ lastItem, pagination d ≠ Some (Some lastItem)
  | None => True
  end →
  result (forM_ (scrapeVariant env src endpoint) (before ++ entry :: rest) p)
  = inl (match site env (fullUrl endpoint entry.2) with
         | None => NavigationError (fullUrl endpoint entry.2)
         | Some d =>
             match pagination d with
             | None => TimeoutError ".pagination"
             | Some _ => NoElementError "li:last-child"
             end
         end) ∧
  gotos (events (forM_ (scrapeVariant env src endpoint) (before ++ entry :: rest) p))
  = gotos (events (forM_ (scrapeVariant env src endpoint) before p))
    ++ [fullUrl endpoint entry.2] ∧
  yields (events (forM_ (scrapeVariant env src endpoint) (before ++ entry :: rest) p))
  = yields (events (forM_ (scrapeVariant env src endpoint) before p)).
Proof.
  intros Hbefore Hentry.
  destruct (scrapeVariant_unreadable entry
              (page (forM_ (scrapeVariant env src endpoint) before p)) Hentry)
    as (Hres & Hgotos & Hyields).
  rewrite forM__app, (bind_returns _ _ _ _ Hbefore). simpl.
  rewrite (bind_throws _ _ _ _ Hres). simpl.
  rewrite yields_app, gotos_app, Hgotos, Hyields.
  split_and!; [done..|]. by rewrite app_nil_r.
Qed.

(** X8: every batch that is yielded holds one record per product row of
    its page, in the order of the rows. *)
Theorem records_follow_rows p batch :
  batch ∈ yields (events (scrape env src endpoint p)) →
  ∃ (entry : string * string) currentPage d,
    entry ∈ cpuSockets src ∧
    site env (urlOfPage src endpoint entry.2 currentPage) = Some d ∧
    Forall2 (λ productEl record,
               ∃ q, result (scrapeProduct env src endpoint entry.2 productEl q)
                    = inr record)
            (products d) batch.
Proof.
  intros Hbatch.
  destruct (scrape_follows env src endpoint p) as (_ & _ & _ & HP).
  rewrite Forall_forall in HP.
  destruct (HP batch Hbatch) as (entry & currentPage & d & Hentry & Hsite & Hrecords).
  exists entry, currentPage, d. split_and!; [done..|].
  by apply recordsOf_products.
Qed.

(** X9: the name found for a variant is the key of the first entry of the
    table with the variant's URL fragment; for an entry of the table there
    always is one. *)
Theorem socket_name_is_first_match (entry : string * string) :
  entry ∈ cpuSockets src →
  ∃ before first after,
    cpuSockets src = before ++ first :: after ∧
    first.2 = entry.2 ∧
    Forall (λ other : string * string, other.2 ≠ entry.2) before ∧
    findSocketName src entry.2 = Some first.1.
Proof.
  unfold findSocketName. generalize (cpuSockets src) as entries.
  induction entries as [|head entries IH]; intros Hentry.
  - by apply elem_of_nil in Hentry.
  - simpl. case_bool_decide as Hsame.
    + by exists [], head, entries.
    + apply elem_of_cons in Hentry as [->|Hentry]; [done|].
      destruct (IH Hentry) as (before & first & after & -> & Hfirst & Hbefore & Hfind).
      exists (head :: before), first, after. split_and!; [done..| |done].
      by constructor.
Qed.

End Edges.

(** ** Where a traversal navigates *)

Section Navigation.

Context {number : Type}.
Variable env : Env number.

Abbreviation M := (@M number).

Lemma urlOfPage_under_endpoint src endpoint socketUrl currentPage :
  src = Motherboard.source ∨ src = Cpu.source →
  ∃ rest,
    urlOfPage src endpoint socketUrl currentPage
    = BASE_URL +:+ "/" +:+ endpoint +:+ "/" +:+ rest.
Proof.
  intros Hsrc. unfold urlOfPage. case_decide; [|by eexists].
  destruct Hsrc as [-> | ->]; by eexists.
Qed.

(** X10: in both copies, every URL a traversal navigates to lies under the
    listing of its endpoint, [BASE_URL/endpoint/]. *)
Theorem navigations_stay_under_endpoint src endpoint p url :
  src = Motherboard.source ∨ src = Cpu.source →
  url ∈ gotos (events (scrape env src endpoint p)) →
  ∃ rest, url = BASE_URL +:+ "/" +:+ endpoint +:+ "/" +:+ rest.
Proof.
  intros Hsrc Hurl.
  destruct (scrape_follows env src endpoint p) as (_ & [later Hplan] & _).
  assert (url ∈ navigationsInOrder env src endpoint) as Hin.
  { rewrite Hplan. apply elem_of_app. by left. }
  apply list_elem_of_In, in_flat_map in Hin as (entry & _ & Hin).
  apply list_elem_of_In in Hin. unfold urlsOfVariant in Hin.
  apply list_elem_of_fmap in Hin as (currentPage & -> & _).
  by apply urlOfPage_under_endpoint.
Qed.

Lemma scrapeVariant_single table rule rule' endpoint (entry : string * string) p :
  (length (pageNumbers (numPagesOf env endpoint entry.2)) ≤ 1)%nat →
  scrapeVariant env (Build_Source table rule) endpoint entry p
  = scrapeVariant env (Build_Source table rule') endpoint entry p.
Proof.
  unfold numPagesOf.
  destruct (site env (fullUrl endpoint entry.2)) as [d|] eqn:Hsite.
  - destruct (pagination d) as [[lastItem|]|] eqn:Hpagination; simpl.
    + rewrite !(scrapeVariant_pages _ _ _ _ _ _ _ Hsite Hpagination).
      intros Hsingle. rewrite Hpagination in Hsingle. simpl in Hsingle.
      assert (pageNumbers (JS.parseInt lastItem) = []
              ∨ pageNumbers (JS.parseInt lastItem) = [1%nat]) as [-> | ->]; [|done|].
      * unfold pageNumbers in *. destruct (JS.parseInt lastItem) as [n|]; [|by left].
        destruct (Z.to_nat n) as [|[|k]]; [by left|by right|].
        simpl in Hsingle. lia.
      * reflexivity.
    + intros _. unfold scrapeVariant. unfold_bind.
      unfold bind, goto, waitForNetworkIdle, emit, waitForPagination.
      rewrite Hsite. simpl. by rewrite Hpagination.
    + intros _. unfold scrapeVariant. unfold_bind.
      unfold bind, goto, waitForNetworkIdle, emit, waitForPagination.
      rewrite Hsite. simpl. by rewrite Hpagination.
  - intros _. unfold scrapeVariant. unfold_bind.
    unfold bind, goto. by rewrite Hsite.
Qed.

Lemma scrapeVariants_single table rule rule' endpoint entries :
  Forall (λ entry : string * string,
            (length (pageNumbers (numPagesOf env endpoint entry.2)) ≤ 1)%nat)
         entries →
  ∀ p, forM_ (scrapeVariant env (Build_Source table rule) endpoint) entries p
       = forM_ (scrapeVariant env (Build_Source table rule') endpoint) entries p.
Proof.
  induction 1 as [|entry entries Hentry _ IH]; intros p; [done|].
  simpl. rewrite (bind_ext _ _ _ _ (λ _ q, IH q)).
  unfold bind. by rewrite (scrapeVariant_single table rule rule').
Qed.

(** X11: the URL rule for later pages matters only where a variant has more
    than one page.  Two files with one table agree on every site whose
    variants have at most one page each, whatever their rules. *)
Theorem url_rule_unused_on_single_pages src src' endpoint p :
  cpuSockets src = cpuSockets src' →
  Forall (λ entry : string * string,
            (length (pageNumbers (numPagesOf env endpoint entry.2)) ≤ 1)%nat)
         (cpuSockets src) →
  scrape env src endpoint p = scrape env src' endpoint p.
Proof.
  destruct src as [table rule], src' as [table' rule']. simpl.
  intros <- Hsingle. by apply scrapeVariants_single.
Qed.

(** *** Every navigation is followed by the wait for network idle *)










End Navigation.

(** ** Starting a run *)

Section Start.

Context {number : Type}.
Variable env : Env number.
Variable src : Source.

(** X13: the endpoints are queued only after the first job has opened the
    site and seen its [nav]; if the site cannot be opened, or shows no
    [nav], the first job throws and no endpoint is ever scraped. *)
Theorem endpoints_queued_only_behind_nav endpoints :
  (∀ d, site env "https://pcpartpicker.com" = Some d → hasNav d = true →
        scrapeInParallel env src endpoints = task env src <$> endpoints) ∧
  (∀ d, site env "https://pcpartpicker.com" = Some d → hasNav d = false →
        result (seed env blankPage) = inl (TimeoutError "nav") ∧
        scrapeInParallel env src endpoints = []) ∧
  (site env "https://pcpartpicker.com" = None →
   result (seed env blankPage) = inl (NavigationError "https://pcpartpicker.com") ∧
   scrapeInParallel env src endpoints = []).
Proof.
  unfold scrapeInParallel, seed. unfold_bind. unfold bind, goto, waitForNav.
  split_and!.
  - intros d -> Hnav. simpl. by rewrite Hnav.
  - intros d -> Hnav. simpl. by rewrite Hnav.
  - by intros ->.
Qed.

Lemma endpointsToScrape_cases argv :
  (drop 2 argv ≠ [] ∧ endpointsToScrape argv = drop 2 argv) ∨
  (drop 2 argv = [] ∧ endpointsToScrape argv = ALL_ENDPOINTS).
Proof.
  unfold endpointsToScrape, inputEndpoints.
  destruct (drop 2 argv) as [|endpoint rest]; [by right|by left].
Qed.

(** X14: a run is never empty.  Without arguments all 25 endpoints are
    scraped, each once; with arguments exactly those, in the order given;
    and once the site is reached each of them gets its report. *)
Theorem run_is_never_empty argv :
  result (seed env blankPage) = inr tt →
  category <$> main env src argv = endpointsToScrape argv ∧
  main env src argv ≠ [] ∧
  (drop 2 argv ≠ [] → category <$> main env src argv = drop 2 argv) ∧
  (drop 2 argv = [] →
   length (main env src argv) = 25%nat ∧ NoDup (category <$> main env src argv)).
Proof.
  intros Hseed. unfold main. rewrite (seeded_run _ _ _ Hseed).
  assert (category <$> (task env src <$> endpointsToScrape argv)
          = endpointsToScrape argv) as Hcategories.
  { rewrite <- list_fmap_compose.
    by rewrite <- (list_fmap_id (endpointsToScrape argv)) at 2. }
  rewrite Hcategories.
  destruct (endpointsToScrape_cases argv) as [[Hgiven ->] | [Hnone ->]].
  - split_and!; [done| |done|done].
    intros Hnil. apply fmap_nil_inv in Hnil. done.
  - split_and!; [done|done|done|].
    intros _. split; [done|]. apply (bool_decide_unpack _). by vm_compute.
Qed.

End Start.

(** ** The further properties on the fixtures *)

Section OnEdge.



Lemma serializer_calls_in_order_witness :
  events (scrapeProduct Edge.env Motherboard.source "mouse" "#mt=ddr2"
            Edge.item blankPage)
  = callsOf Edge.env "mouse" Edge.item.
Proof.
  apply (serializer_calls_in_order Edge.env Motherboard.source "mouse" "#mt=ddr2"
           Edge.item blankPage Edge.itemRecord).
  vm_compute. reflexivity.
Defined.

(** The calls for the product of the second fixture. *)
Example serializer_calls_example :
  callsOf Edge.env "mouse" Edge.item
  = [ EvSerializeNumber "$5"; EvGenericSerialize "Red" "string";
      EvGenericSerialize "90 g" "number"; EvGenericSerialize " Blue " "string" ].
Proof. vm_compute. reflexivity. Qed.

Lemma empty_page_yields_empty_batch_witness :
  scrapePage Fixture.env Motherboard.source "memory" "#mt=ddr4" 1
             (Fixture.listing "1" [])
  = mkOut [EvYield []] (Fixture.listing "1" []) (inr tt).
Proof.
  apply (empty_page_yields_empty_batch Fixture.env Motherboard.source "memory"
           "#mt=ddr4" 1 (Fixture.listing "1" []) (Fixture.listing "1" []));
    reflexivity.
Defined.

Lemma unreadable_page_count_skips_variant_witness :
  scrapeVariant Edge.env Motherboard.source "mouse" ("DDR2", "#mt=ddr2") blankPage
  = mkOut [EvGoto "https://pcpartpicker.com/products/mouse/#mt=ddr2"; EvNetworkIdle]
          (Fixture.listing "Next" [Edge.item]) (inr tt).
Proof.
  apply (unreadable_page_count_skips_variant Edge.env Motherboard.source "mouse"
           ("DDR2", "#mt=ddr2") blankPage (Fixture.listing "Next" [Edge.item]) "Next").
  - vm_compute. reflexivity.
  - reflexivity.
  - left. reflexivity.
Defined.

Lemma unreadable_pagination_ends_traversal_witness :
  result (scrape Edge.env Motherboard.source "keyboard" blankPage)
    = inl (TimeoutError ".pagination") ∧
  gotos (events (scrape Edge.env Motherboard.source "keyboard" blankPage))
    = ["https://pcpartpicker.com/products/keyboard/#mt=ddr2"] ∧
  yields (events (scrape Edge.env Motherboard.source "keyboard" blankPage)) = [].
Proof.
  apply (unreadable_pagination_ends_traversal Edge.env Motherboard.source
           "keyboard" [] ("DDR2", "#mt=ddr2")
           [("DDR3", "#mt=ddr3"); ("DDR4", "#mt=ddr4"); ("DDR5", "#mt=ddr5")]
           blankPage).
  - reflexivity.
  - vm_compute. discriminate.
Defined.

Lemma records_follow_rows_witness :
  ∃ (entry : string * string) currentPage d,
    entry ∈ Motherboard.cpuSockets ∧
    site Fixture.env (urlOfPage Motherboard.source "memory" entry.2 currentPage)
      = Some d ∧
    Forall2 (λ productEl record,
               ∃ q, result (scrapeProduct Fixture.env Motherboard.source "memory"
                              entry.2 productEl q) = inr record)
            (products d) (Fixture.memoryRecord <$> ["DDR2 A"; "DDR2 B"]).
Proof.
  apply (records_follow_rows Fixture.env Motherboard.source "memory" blankPage).
  apply list_elem_of_lookup. exists 0%nat. vm_compute. reflexivity.
Defined.

Lemma socket_name_is_first_match_witness :
  ∃ before first after,
    Motherboard.cpuSockets = before ++ first :: after ∧
    first.2 = "#mt=ddr3" ∧
    Forall (λ other : string * string, other.2 ≠ "#mt=ddr3") before ∧
    findSocketName Motherboard.source "#mt=ddr3" = Some first.1.
Proof.
  apply (socket_name_is_first_match Motherboard.source ("DDR3", "#mt=ddr3")).
  apply (bool_decide_unpack _). vm_compute. exact I.
Defined.

Lemma navigations_stay_under_endpoint_witness :
  ∃ rest,
    "https://pcpartpicker.com/products/os/#mt=ddr3"
    = BASE_URL +:+ "/" +:+ "os" +:+ "/" +:+ rest.
Proof.
  apply (navigations_stay_under_endpoint Fixture.env Motherboard.source "os"
           blankPage).
  - left. reflexivity.
  - apply list_elem_of_lookup. exists 1%nat. vm_compute. reflexivity.
Defined.

Lemma url_rule_unused_on_single_pages_witness :
  scrape Fixture.env Motherboard.source "os" blankPage
  = scrape Fixture.env Edge.mixed "os" blankPage.
Proof.
  apply (url_rule_unused_on_single_pages Fixture.env Motherboard.source Edge.mixed).
  - reflexivity.
  - apply (bool_decide_unpack _). vm_compute. exact I.
Defined.

Lemma run_is_never_empty_witness :
  category <$> main Fixture.env Motherboard.source ["node"; "scraper.ts"; "os"; "mouse"]
  = ["os"; "mouse"].
Proof.
  apply (run_is_never_empty Fixture.env Motherboard.source
           ["node"; "scraper.ts"; "os"; "mouse"]).
  - vm_compute. reflexivity.
  - discriminate.
Defined.

End OnEdge.
